(** * Quadruped kinematics and the gait visualizer loop

    A shallow embedding of
    - [quadruped_controller/kinematics.cpp]: [leg_jacobian],
      [leg_forward_kinematics], the [QuadrupedKinematics] constructor,
      [forwardKinematics] and [jacobianTransposeControl];
    - [gait_visualizer_node.cpp]: [footTrajViz] and the body of [main].

    Modelling conventions.
    - A C++ [double] is a real number of [R]: arithmetic is exact, rounding is
      not modelled.  [sin] and [cos] are the real functions.  The exception
      is the phase arithmetic of [footTrajViz], whose loop accumulates
      rounding: the two durations [t_stance] and [t_swing], the stance phase
      computed from them and the phases that [footTrajViz] steps through are
      IEEE binary64 values ([float]) with the rounded operations of the
      machine, and [double_value] gives the real number that such a value
      stands for.
    - An Armadillo [vec] is a list of reals; a [mat] carries its two
      dimensions and its elements in column-major order, as Armadillo stores
      them.  Element and sub-vector access is bounds checked (Armadillo's
      default build): an access out of range throws, which is [None] here.
    - [std::map<std::string, _>] is a [gmap string _]; [emplace] keeps an
      existing entry and [at] throws on a missing key.
    - An exception that nothing catches ends the program: a function that can
      throw returns an [option]. *)

From Stdlib Require Import Reals Lra Floats.
From stdpp Require Import base option list sorting gmap strings.

#[local] Open Scope R_scope.

(** ** Armadillo vectors and matrices *)

Module Arma.

Definition vec := list R.

Record mat := Mat { n_rows : nat; n_cols : nat; mem : list R }.

(** [v(i)]: bounds-checked element access. *)
Definition at_ (v : vec) (i : nat) : option R := v !! i.

(** [v(i) = x]. *)
Definition set_at (v : vec) (i : nat) (x : R) : option vec :=
  if (i <? length v)%nat then Some (<[i := x]> v) else None.

(** [v.rows(a, b)]: the sub-vector of rows [a..b], both included.  Armadillo
    rejects [a > b] and [b >= n_rows]. *)
Definition rows (v : vec) (a b : nat) : option vec :=
  if ((b <? a)%nat || (length v <=? b)%nat)%bool then None
  else Some (take (S b - a) (drop a v)).

(** [v.rows(a, b) = w]: assignment to a sub-vector; the sizes must agree. *)
Definition set_rows (v : vec) (a b : nat) (w : vec) : option vec :=
  if ((b <? a)%nat || (length v <=? b)%nat)%bool then None
  else if (length w =? S b - a)%nat then Some (take a v ++ w ++ drop (S b) v)
  else None.

(** [m(i, j)]: bounds-checked element access, column-major storage. *)
Definition mat_at (m : mat) (i j : nat) : option R :=
  if ((i <? n_rows m)%nat && (j <? n_cols m)%nat)%bool
  then mem m !! (i + j * n_rows m)%nat else None.

(** [m(i, j) = x]. *)
Definition mat_set (m : mat) (i j : nat) (x : R) : option mat :=
  if ((i <? n_rows m)%nat && (j <? n_cols m)%nat)%bool
  then Some (Mat (n_rows m) (n_cols m) (<[(i + j * n_rows m)%nat := x]> (mem m)))
  else None.

(** [m.col(j)] read as a vector. *)
Definition col (m : mat) (j : nat) : option vec :=
  if (j <? n_cols m)%nat
  then Some (take (n_rows m) (drop (j * n_rows m) (mem m))) else None.

(** [m.col(j) = w]: the column is overwritten; [w] must have [n_rows]
    elements. *)
Definition set_col (m : mat) (j : nat) (w : vec) : option mat :=
  if ((j <? n_cols m)%nat && (length w =? n_rows m)%nat)%bool
  then Some (Mat (n_rows m) (n_cols m)
               (take (j * n_rows m) (mem m) ++ w ++ drop (S j * n_rows m) (mem m)))
  else None.

(** Unchecked read used by the whole-matrix operations below, which only
    visit indices inside the matrix. *)
Definition raw (m : mat) (i j : nat) : R := nth (i + j * n_rows m) (mem m) 0.

Definition sum (l : list R) : R := foldr Rplus 0 l.

(** [m.t()]. *)
Definition t (m : mat) : mat :=
  Mat (n_cols m) (n_rows m)
      (flat_map (fun j => map (fun i => raw m j i) (seq 0 (n_cols m))) (seq 0 (n_rows m))).

(** [m * v]: throws unless [v] has [n_cols] elements. *)
Definition mul_vec (m : mat) (v : vec) : option vec :=
  if (length v =? n_cols m)%nat
  then Some (map (fun i => sum (map (fun j => raw m i j * nth j v 0) (seq 0 (n_cols m))))
                 (seq 0 (n_rows m)))
  else None.

(** [v + w] and [v - w]: element-wise, the sizes must agree. *)
Definition add (v w : vec) : option vec :=
  if (length v =? length w)%nat then Some (zip_with Rplus v w) else None.

Definition sub (v w : vec) : option vec :=
  if (length v =? length w)%nat then Some (zip_with Rminus v w) else None.

(** [inv(m)] for a [mat33]: the inverse by cofactors; a singular matrix
    makes Armadillo throw. *)
Definition det33 (m : mat) : R :=
  raw m 0 0 * (raw m 1 1 * raw m 2 2 - raw m 1 2 * raw m 2 1)
  - raw m 0 1 * (raw m 1 0 * raw m 2 2 - raw m 1 2 * raw m 2 0)
  + raw m 0 2 * (raw m 1 0 * raw m 2 1 - raw m 1 1 * raw m 2 0).

Definition adj33 (m : mat) : list R :=
  [ raw m 1 1 * raw m 2 2 - raw m 1 2 * raw m 2 1;
    raw m 1 2 * raw m 2 0 - raw m 1 0 * raw m 2 2;
    raw m 1 0 * raw m 2 1 - raw m 1 1 * raw m 2 0;
    raw m 0 2 * raw m 2 1 - raw m 0 1 * raw m 2 2;
    raw m 0 0 * raw m 2 2 - raw m 0 2 * raw m 2 0;
    raw m 0 1 * raw m 2 0 - raw m 0 0 * raw m 2 1;
    raw m 0 1 * raw m 1 2 - raw m 0 2 * raw m 1 1;
    raw m 0 2 * raw m 1 0 - raw m 0 0 * raw m 1 2;
    raw m 0 0 * raw m 1 1 - raw m 0 1 * raw m 1 0 ].

Definition inv (m : mat) : option mat :=
  if ((n_rows m =? 3)%nat && (n_cols m =? 3)%nat)%bool then
    if Req_dec_T (det33 m) 0 then None
    else Some (Mat 3 3 (map (fun c => c / det33 m) (adj33 m)))
  else None.

End Arma.

Import Arma.

(** [std::map::emplace]: nothing happens when the key is already there. *)
Definition emplace {V : Type} (k : string) (v : V) (m : gmap string V) : gmap string V :=
  match m !! k with
  | Some _ => m
  | None => <[k := v]> m
  end.

(** The entries of a [std::map] in the order in which a range-based [for]
    visits them: by key. *)
Definition key_le {V : Type} : relation (string * V) :=
  λ a b, String.leb a.1 b.1 = true.

#[global] Instance key_le_dec {V : Type} : RelDecision (@key_le V) :=
  λ a b, decide (String.leb a.1 b.1 = true).

Definition in_key_order {V : Type} (m : gmap string V) : list (string * V) :=
  merge_sort key_le (map_to_list m).

(** ** Constants of kinematics.cpp *)

(** The dimensions written in the constructor. *)
Definition xbh : R := 0.196.
Definition ybh : R := 0.050.
Definition zbh : R := 0.0.
Definition l1 : R := 0.077.
Definition l2 : R := 0.211.
Definition l3 : R := 0.230.

Definition trans_rl : vec := [- xbh; ybh; zbh].
Definition trans_fl : vec := [xbh; ybh; zbh].
Definition trans_rr : vec := [- xbh; - ybh; zbh].
Definition trans_fr : vec := [xbh; - ybh; zbh].

Definition left_links : vec := [l1; - l2; - l3].
Definition right_links : vec := [- l1; - l2; - l3].

(** The object is its one data member: leg name to (base-to-hip translation,
    link configuration). *)
Record QuadrupedKinematics := { link_map_ : gmap string (vec * vec) }.

Definition QuadrupedKinematics_ctor : QuadrupedKinematics :=
  {| link_map_ :=
       emplace "FR" (trans_fr, right_links)
         (emplace "RR" (trans_rr, right_links)
            (emplace "FL" (trans_fl, left_links)
               (emplace "RL" (trans_rl, left_links) ∅))) |}.

(** The order of the legs in a 12-element joint vector. *)
Definition leg_order : list string := ["RL"; "FL"; "RR"; "FR"].

(** ** Messages and types of gait_visualizer_node.cpp *)

Inductive LegState := stance | swing.

(** [GaitMap]: leg name to (state, phase).  [FootholdMap]: leg name to a
    world-frame position.  [FootTrajBoundsMap]: leg name to the start and the
    final position of a swing. *)
Abbreviation GaitMap := (gmap string (LegState * R)).
Abbreviation FootholdMap := (gmap string vec).
Abbreviation FootTrajBoundsMap := (gmap string (vec * vec)).

(** Of a [FootState] the node reads and writes the position only. *)
Record FootState := { position : vec }.

(** The fields of [visualization_msgs::Marker] that [footTrajViz] assigns;
    [marker_default] is the marker that [resize] creates. *)
Record Marker := {
  frame_id : string; stamp : R; ns : string; id : Z;
  type : Z; action : Z;
  pose_position : R * R * R; pose_orientation_w : R;
  scale : R * R * R; lifetime : float;
  color : R * R * R * R  (* r, g, b, a *)
}.

Definition marker_default : Marker :=
  {| frame_id := ""; stamp := 0; ns := ""; id := 0; type := 0; action := 0;
     pose_position := (0, 0, 0); pose_orientation_w := 0;
     scale := (0, 0, 0); lifetime := 0%float; color := (0, 0, 0, 0) |}.

Definition SPHERE : Z := 2.
Definition ADD : Z := 0.

Record JointState := { js_stamp : R; js_name : list string; js_position : list R }.

(** What the node sends out: error lines of the log and the messages of its
    two publishers.  A joint state is tagged with the leg of the loop
    iteration that published it. *)
Inductive Event :=
  | LogError (line : string)
  | PublishMarkers (markers : list Marker)
  | PublishJointState (leg : string) (msg : JointState).

(** A computation that emits events and may throw: the events emitted before
    the exception stay emitted. *)
Record Pub (A : Type) := MkPub { events : list Event; result : option A }.
Arguments MkPub {A} _ _.
Arguments events {A} _.
Arguments result {A} _.

#[global] Instance Pub_ret : MRet Pub := λ A a, MkPub [] (Some a).
#[global] Instance Pub_bind : MBind Pub := λ A B k m,
  match result m with
  | None => MkPub (events m) None
  | Some a => MkPub (events m ++ events (k a)) (result (k a))
  end.

Definition emit (e : Event) : Pub unit := MkPub [e] (Some tt).
Definition may_throw {A : Type} (o : option A) : Pub A := MkPub [] o.

(** A range-based [for] whose body may throw. *)
Fixpoint for_each {A : Type} (l : list A) (body : A → Pub unit) : Pub unit :=
  match l with
  | [] => mret tt
  | a :: l' => body a ≫= λ _, for_each l' body
  end.

(** The same for a loop that builds a value. *)
Fixpoint for_fold {A S : Type} (l : list A) (body : A → S → option S) (s : S) : option S :=
  match l with
  | [] => Some s
  | a :: l' => body a s ≫= for_fold l' body
  end.

(** The parameters as the node has them after reading the parameter server
    (a parameter that is not set leaves the default). *)
Record Config := {
  num_joints_param : Z;              (* the [int] of joints/num_joints *)
  leg_names : list string;
  joint_names : list string;
  init_joint_positions : list R;
  t_stance : float; t_swing : float; height : R;
  gait_offset_phases : list R;
  robot_position : list R;
  robot_orientation : list R;        (* x, y, z, w *)
  linear_velocity : list R;
  linear_velocity_desired : list R;
  angular_velocity_desired : list R
}.

(** [{ src.at(3k), src.at(3k+1), src.at(3k+2) }]. *)
Definition slice3 {V : Type} (src : list V) (k : nat) : option (list V) :=
  a ← src !! (3 * k)%nat; b ← src !! (3 * k + 1)%nat; c ← src !! (3 * k + 2)%nat;
  Some [a; b; c].

(** [m.emplace(leg_names.at(k), { src.at(3k), src.at(3k+1), src.at(3k+2) })]. *)
Definition emplace_leg {V : Type} (leg_names : list string) (src : list V) (k : nat)
    (m : gmap string (list V)) : option (gmap string (list V)) :=
  leg ← leg_names !! k; v ← slice3 src k; Some (emplace leg v m).

(** The four [emplace] calls that map the leg names to their slices of
    [src]. *)
Definition leg_map {V : Type} (leg_names : list string) (src : list V)
    : option (gmap string (list V)) :=
  m ← emplace_leg leg_names src 0 ∅;
  m ← emplace_leg leg_names src 1 m;
  m ← emplace_leg leg_names src 2 m;
  emplace_leg leg_names src 3 m.

(** [static_cast<unsigned int>] of an [int]. *)
Definition to_unsigned (n : Z) : Z := n mod 2 ^ 32.

(** What [main] holds when it enters the loop. *)
Record Node := {
  leg_joints_name_map : gmap string (list string);
  leg_joints_init_positions_map : gmap string (list R);
  stance_phase : float;
  Rwb : mat; x : vec; xdot : vec; xdot_d : vec; w_d : vec;
  kinematics : QuadrupedKinematics;
  foothold_start_map : FootholdMap;
  node_t_stance : float; node_t_swing : float
}.

(** Evaluates the list, map and matrix operations around real expressions
    and leaves the real arithmetic as it is written. *)
Ltac real_compute :=
  lazy -[Rplus Rminus Rmult Rdiv Ropp Rinv IZR INR sin cos xbh ybh zbh l1 l2 l3].

(** ** The doubles of the phase arithmetic *)

(** The real number that a finite double stands for; an infinity or a NaN,
    which the phases of a stance phase in [[0, 1)] never are, is given 0. *)
Definition double_value (f : float) : R :=
  match Prim2SF f with
  | S754_finite s m e => IZR (if s then Z.neg m else Z.pos m) * powerRZ 2 e
  | _ => 0
  end.

(** [dt = (1.0 - stance_phase) / steps] with [steps = 30], in doubles (line
    54 of the node). *)
Definition footTrajViz_dt (stance_phase : float) : float :=
  ((1.0 - stance_phase) / 30.0)%float.

(** The value of [phase] in iteration [i] of the loop of [footTrajViz]: it
    starts at [stance_phase] and grows by [phase += dt] (lines 59 and 96). *)
Fixpoint footTrajViz_phase (stance_phase : float) (i : nat) : float :=
  match i with
  | O => stance_phase
  | S i' => (footTrajViz_phase stance_phase i' + footTrajViz_dt stance_phase)%float
  end.

(** A stance phase just below 1, in [[0, 1)]. *)
Definition stance_phase_near_one : float := (1.0 - 0x1p-45)%float.

(** ** Concrete inputs

    The configurations and surroundings at which the functions are evaluated
    further down. *)

Definition zero_fill : nat → R := λ _, 0.

(** The rotation matrix of a unit quaternion [(w, x, y, z)], entry [(i, j)]. *)
Definition quaternion_rotation (w x y z : R) (i j : nat) : R :=
  match i, j with
  | O, O => 1 - 2 * (y * y + z * z)
  | O, S O => 2 * (x * y - w * z)
  | O, S (S O) => 2 * (x * z + w * y)
  | S O, O => 2 * (x * y + w * z)
  | S O, S O => 1 - 2 * (x * x + z * z)
  | S O, S (S O) => 2 * (y * z - w * x)
  | S (S O), O => 2 * (x * z - w * y)
  | S (S O), S O => 2 * (y * z + w * x)
  | S (S O), S (S O) => 1 - 2 * (x * x + y * y)
  | _, _ => 0
  end.

(** A half turn about the vertical axis (orientation [(0, 0, 1, 0)]), the
    robot at [(1, 0, 0)], and a reference foot position at [(1, 0, 0)]. *)
Definition half_turn : mat := Mat 3 3 [-1; 0; 0; 0; -1; 0; 0; 0; 1].
Definition body_at : vec := [1; 0; 0].
Definition foot_at : vec := [1; 0; 0].

(** Twelve joint names and twelve initial positions, with [num_joints] set to
    11; everything else is the default of the node. *)
Definition cfg_eleven_joints : Config :=
  {| num_joints_param := 11;
     leg_names := ["RL"; "FL"; "RR"; "FR"];
     joint_names := ["RL_hip"; "RL_thigh"; "RL_calf"; "FL_hip"; "FL_thigh"; "FL_calf";
                     "RR_hip"; "RR_thigh"; "RR_calf"; "FR_hip"; "FR_thigh"; "FR_calf"];
     init_joint_positions := [0; 0.5; -1; 0; 0.5; -1; 0; 0.5; -1; 0; 0.5; -1];
     t_stance := 1.0%float; t_swing := 1.0%float; height := 0.08;
     gait_offset_phases := [0.0; 0.5; 0.5; 0.0];
     robot_position := [0.0; 0.0; 0.0];
     robot_orientation := [0.0; 0.0; 0.0; 1.0];
     linear_velocity := [0.0; 0.0; 0.0; 0.0];
     linear_velocity_desired := [0.0; 0.0; 0.0];
     angular_velocity_desired := [0.0; 0.0; 0.0] |}.

(** The same with the 12 that matches. *)
Definition cfg_twelve_joints : Config :=
  {| num_joints_param := 12;
     leg_names := leg_names cfg_eleven_joints;
     joint_names := joint_names cfg_eleven_joints;
     init_joint_positions := init_joint_positions cfg_eleven_joints;
     t_stance := 1.0%float; t_swing := 1.0%float; height := 0.08;
     gait_offset_phases := [0.0; 0.5; 0.5; 0.0];
     robot_position := [0.0; 0.0; 0.0];
     robot_orientation := [0.0; 0.0; 0.0; 1.0];
     linear_velocity := [0.0; 0.0; 0.0; 0.0];
     linear_velocity_desired := [0.0; 0.0; 0.0];
     angular_velocity_desired := [0.0; 0.0; 0.0] |}.

(** A gait map with the four legs in stance. *)
Definition all_stance : GaitMap :=
  <["RL" := (stance, 0)]> (<["FL" := (stance, 0)]> (<["RR" := (stance, 0)]>
    (<["FR" := (stance, 0)]> ∅))).

(** A planner that plans nothing, a trajectory manager without state whose
    reference is the origin, and an inverse solve that hands back the
    position it was given. *)
Definition no_footholds : float → mat → vec → vec → vec → vec → GaitMap → FootholdMap :=
  λ _ _ _ _ _ _ _, ∅.
Definition origin_reference : unit → string → R → FootState :=
  λ _ _ _, {| position := [0; 0; 0] |}.
Definition echo_inverse : QuadrupedKinematics → string → vec → option vec :=
  λ _ _ p, Some p.

(** A trajectory manager whose reference position reports, as its x
    coordinate, the phase it was asked for. *)
Definition phase_reference : unit → string → R → FootState :=
  λ _ _ phase, {| position := [phase; 0; 0] |}.

(** ** The two source files *)

Section Quadruped.

(** The elements of a [vec(n)] or [mat(r, c)] that was constructed without a
    fill: zeros in recent Armadillo releases, whatever the allocator left in
    older ones.  [uninit k] is the element at offset [k]. *)
Variable uninit : nat → R.

(** The parts of the repository that the node calls and whose code is in
    other files: the inverse position solve of [QuadrupedKinematics], the
    quaternion of [math/numerics.hpp] (entry [(i, j)] of its [mat33]), the
    foot trajectory manager, the foothold planner, and the clock (one reading
    stands for all of them: nothing below depends on a stamp).  They are
    taken as functions that return. *)
Variable legInverseKinematics : QuadrupedKinematics → string → vec → option vec.
Variable Quaternion_matrix : R → R → R → R → nat → nat → R.
Variable FootTrajectoryManager : Type.
Variable FootTrajectoryManager_ctor : R → float → float → FootTrajectoryManager.
Variable referenceState : FootTrajectoryManager → string → R → FootState.
Variable referenceStates : FootTrajectoryManager → GaitMap → FootTrajectoryManager.
Variable referenceStates_plan :
  FootTrajectoryManager → GaitMap → FootTrajBoundsMap → FootTrajectoryManager.
Variable FootPlanner_positions : float → mat → vec → vec → vec → vec → GaitMap → FootholdMap.
Variable ros_Time_now : R.

(** *** kinematics.cpp *)

Definition vec_new (n : nat) : vec := map uninit (seq 0 n).
Definition mat_new (r c : nat) : mat := Mat r c (map uninit (seq 0 (r * c))).

Definition leg_jacobian (links joints : vec) : option mat :=
  l1 ← at_ links 0; l2 ← at_ links 1; l3 ← at_ links 2;
  t1 ← at_ joints 0; t2 ← at_ joints 1; t3 ← at_ joints 2;
  let jac := mat_new 3 3 in
  jac ← mat_set jac 0 0 0;
  jac ← mat_set jac 0 1 (l2 * cos t2 + l3 * cos (t2 + t3));
  jac ← mat_set jac 0 2 (l3 * cos (t2 + t3));
  jac ← mat_set jac 1 0 (- l1 * sin t1 - l2 * cos t1 * cos t2 - l3 * cos t1 * cos (t2 + t3));
  jac ← mat_set jac 1 1 ((l2 * sin t2 + l3 * sin (t2 + t3)) * sin t1);
  jac ← mat_set jac 1 2 (l3 * sin t1 * sin (t2 + t3));
  jac ← mat_set jac 2 0 (l1 * cos t1 - l2 * sin t1 * cos t2 - l3 * sin t1 * cos (t2 + t3));
  jac ← mat_set jac 2 1 (- (l2 * sin t2 + l3 * sin (t2 + t3)) * cos t1);
  jac ← mat_set jac 2 2 (- l3 * sin (t2 + t3) * cos t1);
  Some jac.

Definition leg_forward_kinematics (trans_bh links joints : vec) : option vec :=
  l1 ← at_ links 0; l2 ← at_ links 1; l3 ← at_ links 2;
  t1 ← at_ joints 0; t2 ← at_ joints 1; t3 ← at_ joints 2;
  let foot_position := vec_new 3 in
  b0 ← at_ trans_bh 0;
  foot_position ← set_at foot_position 0 (l2 * sin t2 + l3 * sin (t2 + t3) + b0);
  b1 ← at_ trans_bh 1;
  foot_position ← set_at foot_position 1
    (l1 * cos t1 - l2 * sin t1 * cos t2 - l3 * sin t1 * cos (t2 + t3) + b1);
  b2 ← at_ trans_bh 2;
  foot_position ← set_at foot_position 2
    (l1 * sin t1 + l2 * cos t1 * cos t2 + l3 * cos t1 * cos (t2 + t3) + b2);
  Some foot_position.

(** Coordinate [i] of the foot as a function of the configuration ([0] where
    [leg_forward_kinematics] throws): what the partial derivatives are taken
    of. *)
Definition foot_coordinate (trans_bh links joints : vec) (i : nat) : R :=
  default 0 (p ← leg_forward_kinematics trans_bh links joints; at_ p i).

Definition forwardKinematics (self : QuadrupedKinematics) (q : vec) : option mat :=
  let ft_p := mat_new 3 4 in
  rl ← link_map_ self !! "RL"; j ← rows q 0 2;
  p ← leg_forward_kinematics rl.1 rl.2 j; ft_p ← set_col ft_p 0 p;
  fl ← link_map_ self !! "FL"; j ← rows q 3 5;
  p ← leg_forward_kinematics fl.1 fl.2 j; ft_p ← set_col ft_p 1 p;
  rr ← link_map_ self !! "RR"; j ← rows q 6 8;
  p ← leg_forward_kinematics rr.1 rr.2 j; ft_p ← set_col ft_p 2 p;
  fr ← link_map_ self !! "FR"; j ← rows q 9 11;
  p ← leg_forward_kinematics fr.1 fr.2 j; ft_p ← set_col ft_p 3 p;
  Some ft_p.

Definition jacobianTransposeControl (self : QuadrupedKinematics) (q f : vec) : option vec :=
  let tau := vec_new 12 in
  rl ← link_map_ self !! "RL"; j ← rows q 0 2; j_rl ← leg_jacobian rl.2 j;
  fl ← link_map_ self !! "FL"; j ← rows q 3 5; j_fl ← leg_jacobian fl.2 j;
  rr ← link_map_ self !! "RR"; j ← rows q 6 8; j_rr ← leg_jacobian rr.2 j;
  fr ← link_map_ self !! "FR"; j ← rows q 9 11; j_fr ← leg_jacobian fr.2 j;
  fs ← rows f 0 2; v ← mul_vec (t j_rl) fs; tau ← set_rows tau 0 2 v;
  fs ← rows f 3 5; v ← mul_vec (t j_fl) fs; tau ← set_rows tau 3 5 v;
  fs ← rows f 6 8; v ← mul_vec (t j_rr) fs; tau ← set_rows tau 6 8 v;
  fs ← rows f 9 11; v ← mul_vec (t j_fr) fs; tau ← set_rows tau 9 11 v;
  Some tau.

(** *** gait_visualizer_node.cpp *)

Definition steps : nat := 30.

(** The marker that one iteration of the loop of [footTrajViz] writes at
    index [i]. *)
Definition trajectory_marker (leg_name : string) (t_swing : float) (i : nat) (px py pz : R)
    : Marker :=
  {| frame_id := "world"; stamp := ros_Time_now; ns := leg_name;
     id := Z.of_nat i; type := SPHERE; action := ADD;
     pose_position := (px, py, pz); pose_orientation_w := 1.0;
     scale := (0.01, 0.01, 0.01); lifetime := t_swing;
     color := if (String.eqb leg_name "FL" || String.eqb leg_name "RR")%bool
              then (1.0, 0.0, 0.0, 1.0) else (0.0, 0.0, 1.0, 1.0) |}.

(** The body of the loop of [footTrajViz] run [n] times from counter [i];
    [phase += dt] is the addition of doubles. *)
Fixpoint footTrajViz_loop (foot_traj_manager : FootTrajectoryManager) (leg_name : string)
    (t_swing dt : float) (n i : nat) (phase : float) (markers : list Marker)
    : option (list Marker) :=
  match n with
  | O => Some markers
  | S n' =>
      let foot_state := referenceState foot_traj_manager leg_name (double_value phase) in
      _ ← markers !! i;
      px ← at_ (position foot_state) 0;
      py ← at_ (position foot_state) 1;
      pz ← at_ (position foot_state) 2;
      footTrajViz_loop foot_traj_manager leg_name t_swing dt n' (S i) (phase + dt)%float
        (<[i := trajectory_marker leg_name t_swing i px py pz]> markers)
  end.

Definition footTrajViz (foot_traj_manager : FootTrajectoryManager) (leg_name : string)
    (stance_phase t_swing : float) : option (list Marker) :=
  let dt := footTrajViz_dt stance_phase in
  let markers := replicate steps marker_default in
  footTrajViz_loop foot_traj_manager leg_name t_swing dt steps 0 stance_phase markers.

(** [Rwb * p + x], the body-to-world transform of the foot start positions. *)
Definition body_to_world (Rwb : mat) (x p : vec) : option vec :=
  v ← mul_vec Rwb p; add v x.

(** The transform that the comment above line 292 announces, world frame to
    body frame: the inverse of [body_to_world], [inv(Rwb) * (p - x)]. *)
Definition world_to_body (Rwb : mat) (x p : vec) : option vec :=
  Ri ← inv Rwb; d ← sub p x; mul_vec Ri d.

(** Line 292: [inv(Rwb) * foot_state.position - x]. *)
Definition swing_foot_position (Rwb : mat) (x p : vec) : option vec :=
  Ri ← inv Rwb; v ← mul_vec Ri p; sub v x.

Definition invalid_joint_configuration : string :=
  "Invalid joint configuration. Num(joints) != Num(joint names) != Num(joint initial positions)".

(** [main] up to the loop. *)
Definition startup (cfg : Config) : Pub (Node * FootTrajectoryManager) :=
  let num_joints := to_unsigned (num_joints_param cfg) in
  let q_init : vec := init_joint_positions cfg in
  _ ← (if (negb (num_joints =? Z.of_nat (length (joint_names cfg)))%Z
           || negb (num_joints =? Z.of_nat (length (init_joint_positions cfg)))%Z)%bool
       then emit (LogError invalid_joint_configuration) ≫= λ _,
            emit (LogError "Num(joints): %u, Num(joint names): %lu, Num(joint initial positions): %lu")
       else mret tt);
  names ← may_throw (leg_map (leg_names cfg) (joint_names cfg));
  inits ← may_throw (leg_map (leg_names cfg) (init_joint_positions cfg));
  let stance_phase := (t_stance cfg / (t_swing cfg + t_stance cfg))%float in
  Rwb ← may_throw (qw ← robot_orientation cfg !! 3%nat; qx ← robot_orientation cfg !! 0%nat;
             qy ← robot_orientation cfg !! 1%nat; qz ← robot_orientation cfg !! 2%nat;
             Some (Mat 3 3 (flat_map (fun j => map (fun i => Quaternion_matrix qw qx qy qz i j)
                                                   (seq 0 3)) (seq 0 3))));
  let x : vec := robot_position cfg in
  let kinematics := QuadrupedKinematics_ctor in
  ft_p_init ← may_throw (forwardKinematics kinematics q_init);
  ft_p_init ← may_throw (c ← col ft_p_init 0; w ← body_to_world Rwb x c; set_col ft_p_init 0 w);
  ft_p_init ← may_throw (c ← col ft_p_init 1; w ← body_to_world Rwb x c; set_col ft_p_init 1 w);
  ft_p_init ← may_throw (c ← col ft_p_init 2; w ← body_to_world Rwb x c; set_col ft_p_init 2 w);
  ft_p_init ← may_throw (c ← col ft_p_init 3; w ← body_to_world Rwb x c; set_col ft_p_init 3 w);
  start ← may_throw (c0 ← col ft_p_init 0; c1 ← col ft_p_init 1;
               c2 ← col ft_p_init 2; c3 ← col ft_p_init 3;
               Some (emplace "FR" c3 (emplace "RR" c2 (emplace "FL" c1 (emplace "RL" c0 ∅)))));
  mret ({| leg_joints_name_map := names;
           leg_joints_init_positions_map := inits;
           stance_phase := stance_phase;
           Rwb := Rwb; x := x; xdot := linear_velocity cfg;
           xdot_d := linear_velocity_desired cfg; w_d := angular_velocity_desired cfg;
           kinematics := kinematics;
           foothold_start_map := start;
           node_t_stance := t_stance cfg; node_t_swing := t_swing cfg |},
        FootTrajectoryManager_ctor (height cfg) (t_swing cfg) (t_stance cfg)).

(** One leg of the "publish joint states" loop. *)
Definition publish_leg (nd : Node) (mgr : FootTrajectoryManager) (gait_map : GaitMap)
    (entry : string * (LegState * R)) : Pub unit :=
  let '(leg_name, leg_state) := entry in
  match leg_state.1 with
  | swing =>
      st ← may_throw (gait_map !! leg_name);
      let foot_state := referenceState mgr leg_name st.2 in
      p ← may_throw (swing_foot_position (Rwb nd) (x nd) (position foot_state));
      q ← may_throw (legInverseKinematics (kinematics nd) leg_name p);
      name ← may_throw (leg_joints_name_map nd !! leg_name);
      emit (PublishJointState leg_name
              {| js_stamp := ros_Time_now; js_name := name; js_position := q |})
  | stance =>
      name ← may_throw (leg_joints_name_map nd !! leg_name);
      q ← may_throw (leg_joints_init_positions_map nd !! leg_name);
      emit (PublishJointState leg_name
              {| js_stamp := ros_Time_now; js_name := name; js_position := q |})
  end.

(** One iteration of [while (nh.ok())]; [gait_map] is what
    [gait_scheduler.schedule()] returned. *)
Definition cycle (nd : Node) (mgr : FootTrajectoryManager) (gait_map : GaitMap)
    : Pub FootTrajectoryManager :=
  let foothold_final_map :=
    FootPlanner_positions (node_t_stance nd) (Rwb nd) (x nd) (xdot nd) (xdot_d nd) (w_d nd)
      gait_map in
  mgr ← (if decide (foothold_final_map = ∅) then mret (referenceStates mgr gait_map)
         else
           foot_traj_map ← may_throw (for_fold (in_key_order foothold_final_map)
             (λ '(leg_name, p_final) m,
                s ← foothold_start_map nd !! leg_name; Some (emplace leg_name (s, p_final) m))
             (∅ : FootTrajBoundsMap));
           let mgr := referenceStates_plan mgr gait_map foot_traj_map in
           _ ← for_each (in_key_order foothold_final_map)
             (λ leg, marker_msg ← may_throw (footTrajViz mgr leg.1 (stance_phase nd) (node_t_swing nd));
                     emit (PublishMarkers marker_msg));
           mret mgr);
  _ ← for_each (in_key_order gait_map) (publish_leg nd mgr gait_map);
  mret mgr.

(** The loop, for the successive results of [schedule()] while [nh.ok()]
    holds. *)
Fixpoint run (nd : Node) (mgr : FootTrajectoryManager) (schedule : list GaitMap) : Pub unit :=
  match schedule with
  | [] => mret tt
  | gait_map :: rest => cycle nd mgr gait_map ≫= λ mgr, run nd mgr rest
  end.

Definition main (cfg : Config) (schedule : list GaitMap) : Pub unit :=
  startup cfg ≫= λ '(nd, mgr), run nd mgr schedule.

(** An orientation that is not a unit quaternion and whose matrix
    [quaternion_rotation] is singular. *)
Definition cfg_singular_orientation : Config :=
  {| num_joints_param := 12;
     leg_names := leg_names cfg_eleven_joints;
     joint_names := joint_names cfg_eleven_joints;
     init_joint_positions := init_joint_positions cfg_eleven_joints;
     t_stance := 1.0%float; t_swing := 1.0%float; height := 0.08;
     gait_offset_phases := [0.0; 0.5; 0.5; 0.0];
     robot_position := [0.0; 0.0; 0.0];
     robot_orientation := [0.5; 0.5; 0.0; 0.0];
     linear_velocity := [0.0; 0.0; 0.0; 0.0];
     linear_velocity_desired := [0.0; 0.0; 0.0];
     angular_velocity_desired := [0.0; 0.0; 0.0] |}.

(** The front left leg in swing, the other three in stance. *)
Definition front_left_swing : GaitMap :=
  <["RL" := (stance, 0)]> (<["FL" := (swing, 0.5)]> (<["RR" := (stance, 0)]>
    (<["FR" := (stance, 0)]> ∅))).

(** A planner that returns a foothold for a leg called LF. *)
Definition foothold_for_LF : float → mat → vec → vec → vec → vec → GaitMap → FootholdMap :=
  λ _ _ _ _ _ _ _, {["LF" := [0.2; 0.1; 0]]}.

(** Leg names with RL written twice. *)
Definition leg_names_RL_twice : list string := ["RL"; "RL"; "RR"; "FR"].


(** A node that holds nothing, the value of a node that was not started. *)
Definition no_node : Node :=
  {| leg_joints_name_map := ∅; leg_joints_init_positions_map := ∅;
     stance_phase := 0%float;
     Rwb := Mat 0 0 []; x := []; xdot := []; xdot_d := []; w_d := [];
     kinematics := QuadrupedKinematics_ctor; foothold_start_map := ∅;
     node_t_stance := 0%float; node_t_swing := 0%float |}.

(** * Properties *)

(** ** Derivatives of explicit real functions *)

Section Derivatives.

Implicit Types (f g : R → R) (x a b c : R).

Lemma dl_value f x a b : derivable_pt_lim f x b → b = a → derivable_pt_lim f x a.
Proof. by intros H <-. Qed.

Lemma dl_const c x : derivable_pt_lim (λ _, c) x 0.
Proof. apply derivable_pt_lim_const. Qed.

Lemma dl_id x : derivable_pt_lim (λ t, t) x 1.
Proof. apply derivable_pt_lim_id. Qed.

Lemma dl_plus f g x a b :
  derivable_pt_lim f x a → derivable_pt_lim g x b →
  derivable_pt_lim (λ t, f t + g t) x (a + b).
Proof. apply derivable_pt_lim_plus. Qed.

Lemma dl_minus f g x a b :
  derivable_pt_lim f x a → derivable_pt_lim g x b →
  derivable_pt_lim (λ t, f t - g t) x (a - b).
Proof. apply derivable_pt_lim_minus. Qed.

Lemma dl_opp f x a : derivable_pt_lim f x a → derivable_pt_lim (λ t, - f t) x (- a).
Proof. apply derivable_pt_lim_opp. Qed.

Lemma dl_mult f g x a b :
  derivable_pt_lim f x a → derivable_pt_lim g x b →
  derivable_pt_lim (λ t, f t * g t) x (a * g x + f x * b).
Proof. apply derivable_pt_lim_mult. Qed.

Lemma dl_sin f x a : derivable_pt_lim f x a → derivable_pt_lim (λ t, sin (f t)) x (cos (f x) * a).
Proof.
  intros H. exact (derivable_pt_lim_comp f sin x a (cos (f x)) H (derivable_pt_lim_sin (f x))).
Qed.

Lemma dl_cos f x a :
  derivable_pt_lim f x a → derivable_pt_lim (λ t, cos (f t)) x (- sin (f x) * a).
Proof.
  intros H. exact (derivable_pt_lim_comp f cos x a (- sin (f x)) H (derivable_pt_lim_cos (f x))).
Qed.

End Derivatives.

(** Differentiates a function written with [+], [-], [*], [sin] and [cos];
    the side goal equates the derivative found with the one stated. *)
Ltac differentiate :=
  eapply dl_value;
  [ repeat first
      [ apply dl_const | apply dl_id
      | eapply dl_plus | eapply dl_minus | eapply dl_opp | eapply dl_mult
      | eapply dl_sin | eapply dl_cos ]
  | ].

(** ** kinematics.cpp *)

Local Abbreviation K := QuadrupedKinematics_ctor.

Lemma vec3_inv (v : vec) : length v = 3%nat → ∃ a b c, v = [a; b; c].
Proof. destruct v as [|a [|b [|c [|]]]]; try done. eauto. Qed.

Lemma vec12_inv (v : vec) :
  length v = 12%nat →
  ∃ a0 a1 a2 a3 a4 a5 a6 a7 a8 a9 a10 a11, v = [a0; a1; a2; a3; a4; a5; a6; a7; a8; a9; a10; a11].
Proof.
  intros H. do 12 (destruct v as [|? v]; [done|]). destruct v; [|done].
  by repeat eexists.
Qed.

Lemma leg_forward_kinematics_3 b0 b1 b2 a b c t1 t2 t3 :
  leg_forward_kinematics [b0; b1; b2] [a; b; c] [t1; t2; t3] =
  Some [b * sin t2 + c * sin (t2 + t3) + b0;
        a * cos t1 - b * sin t1 * cos t2 - c * sin t1 * cos (t2 + t3) + b1;
        a * sin t1 + b * cos t1 * cos t2 + c * cos t1 * cos (t2 + t3) + b2].
Proof. reflexivity. Qed.

Lemma leg_jacobian_3 a b c t1 t2 t3 :
  leg_jacobian [a; b; c] [t1; t2; t3] =
  Some (Mat 3 3
    [ 0;
      - a * sin t1 - b * cos t1 * cos t2 - c * cos t1 * cos (t2 + t3);
      a * cos t1 - b * sin t1 * cos t2 - c * sin t1 * cos (t2 + t3);
      b * cos t2 + c * cos (t2 + t3);
      (b * sin t2 + c * sin (t2 + t3)) * sin t1;
      - (b * sin t2 + c * sin (t2 + t3)) * cos t1;
      c * cos (t2 + t3);
      c * sin t1 * sin (t2 + t3);
      - c * sin (t2 + t3) * cos t1 ]).
Proof. reflexivity. Qed.

(** C1: for 3-element vectors [leg_jacobian] returns a 3x3 matrix whose entry
    [(i, j)] is the derivative, at the given configuration, of coordinate [i]
    of the foot position of [leg_forward_kinematics] with respect to joint
    [j]; the base-to-hip translation does not appear in it. *)
Theorem leg_jacobian_is_derivative_of_forward_kinematics (trans_bh links joints : vec) :
  length trans_bh = 3%nat → length links = 3%nat → length joints = 3%nat →
  ∃ jac, leg_jacobian links joints = Some jac ∧
    n_rows jac = 3%nat ∧ n_cols jac = 3%nat ∧
    (∀ j tj, is_Some (leg_forward_kinematics trans_bh links (<[j := tj]> joints))) ∧
    ∀ i j, (i < 3)%nat → (j < 3)%nat →
      ∃ d tj, mat_at jac i j = Some d ∧ joints !! j = Some tj ∧
        derivable_pt_lim
          (λ t, foot_coordinate trans_bh links (<[j := t]> joints) i) tj d.
Proof.
  intros (b0 & b1 & b2 & ->)%vec3_inv (a & b & c & ->)%vec3_inv (t1 & t2 & t3 & ->)%vec3_inv.
  rewrite leg_jacobian_3. eexists. split; [done|]. split; [done|]. split; [done|]. split.
  { intros [|[|[|j]]] tj; by eexists. }
  intros i j Hi Hj.
  destruct i as [|[|[|i]]]; [| | |lia]; destruct j as [|[|[|j]]]; try lia;
    (do 2 eexists; split; [reflexivity|]; split; [reflexivity|]);
    cbv [foot_coordinate]; simpl; differentiate; simpl; ring.
Qed.

Lemma link_map_RL : link_map_ K !! "RL" = Some (trans_rl, left_links).
Proof. reflexivity. Qed.

Lemma link_map_FL : link_map_ K !! "FL" = Some (trans_fl, left_links).
Proof. reflexivity. Qed.

Lemma link_map_RR : link_map_ K !! "RR" = Some (trans_rr, right_links).
Proof. reflexivity. Qed.

Lemma link_map_FR : link_map_ K !! "FR" = Some (trans_fr, right_links).
Proof. reflexivity. Qed.

(** C9: the x coordinate of the foot is the same for two configurations that
    differ in the first joint only, and entry [(0, 0)] of the Jacobian is
    zero. *)
Theorem foot_x_independent_of_first_joint (trans_bh links joints : vec) (t1' : R) :
  length trans_bh = 3%nat → length links = 3%nat → length joints = 3%nat →
  ∃ p p' jac x,
    leg_forward_kinematics trans_bh links joints = Some p ∧
    leg_forward_kinematics trans_bh links (<[0%nat := t1']> joints) = Some p' ∧
    at_ p 0 = Some x ∧ at_ p' 0 = Some x ∧
    leg_jacobian links joints = Some jac ∧ mat_at jac 0 0 = Some 0.
Proof.
  intros (b0 & b1 & b2 & ->)%vec3_inv (a & b & c & ->)%vec3_inv (t1 & t2 & t3 & ->)%vec3_inv.
  do 4 eexists. rewrite leg_jacobian_3. simpl. rewrite !leg_forward_kinematics_3.
  repeat split; reflexivity.
Qed.

(** C7: a leg with links [(a, b, c)] at [(t1, t2, t3)] and the leg with links
    [(-a, b, c)] at [(-t1, t2, t3)], their base-to-hip translations mirrored
    in y, have feet mirrored in y; so have the rear and the front pair of the
    robot. *)
Theorem left_right_forward_kinematics_mirrored (bx by_ bz a b c t1 t2 t3 : R) :
  (∃ x y z,
     leg_forward_kinematics [bx; by_; bz] [a; b; c] [t1; t2; t3] = Some [x; y; z] ∧
     leg_forward_kinematics [bx; - by_; bz] [- a; b; c] [- t1; t2; t3]
       = Some [x; - y; z]) ∧
  (∃ x y z,
     leg_forward_kinematics trans_rl left_links [t1; t2; t3] = Some [x; y; z] ∧
     leg_forward_kinematics trans_rr right_links [- t1; t2; t3] = Some [x; - y; z]) ∧
  (∃ x y z,
     leg_forward_kinematics trans_fl left_links [t1; t2; t3] = Some [x; y; z] ∧
     leg_forward_kinematics trans_fr right_links [- t1; t2; t3] = Some [x; - y; z]).
Proof.
  assert (∀ bx by_ bz a b c, ∃ x y z,
    leg_forward_kinematics [bx; by_; bz] [a; b; c] [t1; t2; t3] = Some [x; y; z] ∧
    leg_forward_kinematics [bx; - by_; bz] [- a; b; c] [- t1; t2; t3]
      = Some [x; - y; z]) as Hgen.
  { clear. intros bx by_ bz a b c. do 3 eexists. rewrite !leg_forward_kinematics_3.
    split; [reflexivity|]. rewrite sin_neg, cos_neg.
    apply f_equal. repeat (apply (f_equal2 cons); [ring|]). reflexivity. }
  split; [apply Hgen|]. split.
  - destruct (Hgen (- xbh) ybh zbh l1 (- l2) (- l3)) as (x & y & z & H1 & H2).
    exists x, y, z. split; assumption.
  - destruct (Hgen xbh ybh zbh l1 (- l2) (- l3)) as (x & y & z & H1 & H2).
    exists x, y, z. split; assumption.
Qed.

(** [forwardKinematics] reads the first twelve elements of its argument:
    the four columns are the feet of RL, FL, RR and FR. *)
Lemma forwardKinematics_12 (q0 q1 q2 q3 q4 q5 q6 q7 q8 q9 q10 q11 : R) (rest : vec) :
  ∃ p0 p1 p2 p3,
    leg_forward_kinematics trans_rl left_links [q0; q1; q2] = Some p0 ∧
    leg_forward_kinematics trans_fl left_links [q3; q4; q5] = Some p1 ∧
    leg_forward_kinematics trans_rr right_links [q6; q7; q8] = Some p2 ∧
    leg_forward_kinematics trans_fr right_links [q9; q10; q11] = Some p3 ∧
    forwardKinematics K (q0 :: q1 :: q2 :: q3 :: q4 :: q5 :: q6 :: q7 :: q8 ::
                                q9 :: q10 :: q11 :: rest)
      = Some (Mat 3 4 (p0 ++ p1 ++ p2 ++ p3)).
Proof. do 4 eexists. repeat split; reflexivity. Qed.

Lemma forwardKinematics_short (q : vec) :
  (length q < 12)%nat → forwardKinematics K q = None.
Proof.
  intros H. do 12 (destruct q as [|? q]; [reflexivity|]). simpl in H. lia.
Qed.

(** C5, as the code has it: [forwardKinematics] throws exactly when its
    argument has fewer than 12 elements; with 12 or more it returns a 3x4
    matrix, the one of the first 12 elements: column 0 is the foot of RL
    computed from elements 0..2, column 1 the foot of FL from elements 3..5,
    column 2 the foot of RR from elements 6..8 and column 3 the foot of FR
    from elements 9..11. *)
Theorem forwardKinematics_defined_iff_at_least_12 (q : vec) :
  (forwardKinematics K q = None ↔ (length q < 12)%nat) ∧
  ((12 ≤ length q)%nat →
     ∃ ft_p, forwardKinematics K q = Some ft_p ∧
       n_rows ft_p = 3%nat ∧ n_cols ft_p = 4%nat ∧ length (mem ft_p) = 12%nat ∧
       forwardKinematics K (take 12 q) = Some ft_p ∧
       ∃ q_rl q_fl q_rr q_fr p_rl p_fl p_rr p_fr,
         rows q 0 2 = Some q_rl ∧ q_rl = take 3 q ∧
         rows q 3 5 = Some q_fl ∧ q_fl = take 3 (drop 3 q) ∧
         rows q 6 8 = Some q_rr ∧ q_rr = take 3 (drop 6 q) ∧
         rows q 9 11 = Some q_fr ∧ q_fr = take 3 (drop 9 q) ∧
         leg_forward_kinematics trans_rl left_links q_rl = Some p_rl ∧
         leg_forward_kinematics trans_fl left_links q_fl = Some p_fl ∧
         leg_forward_kinematics trans_rr right_links q_rr = Some p_rr ∧
         leg_forward_kinematics trans_fr right_links q_fr = Some p_fr ∧
         length p_rl = 3%nat ∧ length p_fl = 3%nat ∧
         length p_rr = 3%nat ∧ length p_fr = 3%nat ∧
         col ft_p 0 = Some p_rl ∧ col ft_p 1 = Some p_fl ∧
         col ft_p 2 = Some p_rr ∧ col ft_p 3 = Some p_fr).
Proof.
  assert ((12 ≤ length q)%nat →
     ∃ ft_p, forwardKinematics K q = Some ft_p ∧
       n_rows ft_p = 3%nat ∧ n_cols ft_p = 4%nat ∧ length (mem ft_p) = 12%nat ∧
       forwardKinematics K (take 12 q) = Some ft_p ∧
       ∃ q_rl q_fl q_rr q_fr p_rl p_fl p_rr p_fr,
         rows q 0 2 = Some q_rl ∧ q_rl = take 3 q ∧
         rows q 3 5 = Some q_fl ∧ q_fl = take 3 (drop 3 q) ∧
         rows q 6 8 = Some q_rr ∧ q_rr = take 3 (drop 6 q) ∧
         rows q 9 11 = Some q_fr ∧ q_fr = take 3 (drop 9 q) ∧
         leg_forward_kinematics trans_rl left_links q_rl = Some p_rl ∧
         leg_forward_kinematics trans_fl left_links q_fl = Some p_fl ∧
         leg_forward_kinematics trans_rr right_links q_rr = Some p_rr ∧
         leg_forward_kinematics trans_fr right_links q_fr = Some p_fr ∧
         length p_rl = 3%nat ∧ length p_fl = 3%nat ∧
         length p_rr = 3%nat ∧ length p_fr = 3%nat ∧
         col ft_p 0 = Some p_rl ∧ col ft_p 1 = Some p_fl ∧
         col ft_p 2 = Some p_rr ∧ col ft_p 3 = Some p_fr) as Hlong.
  { intros H. do 12 (destruct q as [|? q]; [simpl in H; lia|]).
    eexists. do 5 (split; [reflexivity|]).
    do 8 eexists. repeat (split; [reflexivity|]). reflexivity. }
  split; [|exact Hlong]. split.
  - intros Hnone. destruct (Nat.lt_ge_cases (length q) 12) as [|Hge]; [done|].
    destruct (Hlong Hge) as (? & Hsome & _). congruence.
  - apply forwardKinematics_short.
Qed.

(** C8: at the zero configuration the feet are at
    [(±xbh, ±(l1 + ybh), -(l2 + l3))], columns RL, FL, RR, FR. *)
Theorem forwardKinematics_zero_configuration :
  ∃ ft_p, forwardKinematics K (replicate 12 0) = Some ft_p ∧
    n_rows ft_p = 3%nat ∧ n_cols ft_p = 4%nat ∧
    col ft_p 0 = Some [- xbh; l1 + ybh; - (l2 + l3)] ∧
    col ft_p 1 = Some [xbh; l1 + ybh; - (l2 + l3)] ∧
    col ft_p 2 = Some [- xbh; - (l1 + ybh); - (l2 + l3)] ∧
    col ft_p 3 = Some [xbh; - (l1 + ybh); - (l2 + l3)].
Proof.
  destruct (forwardKinematics_12 0 0 0 0 0 0 0 0 0 0 0 0 [])
    as (p0 & p1 & p2 & p3 & H0 & H1 & H2 & H3 & Hfk).
  unfold trans_rl, trans_fl, trans_rr, trans_fr, left_links, right_links in *.
  rewrite leg_forward_kinematics_3 in H0, H1, H2, H3.
  injection H0 as <-. injection H1 as <-. injection H2 as <-. injection H3 as <-.
  eexists. split; [exact Hfk|]. split; [reflexivity|]. split; [reflexivity|].
  cbv [col]. simpl. rewrite !Rplus_0_r, sin_0, cos_0. unfold zbh.
  repeat split; apply f_equal; repeat (apply (f_equal2 cons); [lra|]); reflexivity.
Qed.

Lemma zero_configuration_numbers :
  - xbh = -0.196 ∧ l1 + ybh = 0.127 ∧ - (l2 + l3) = -0.441.
Proof. unfold xbh, ybh, l1, l2, l3. repeat split; lra. Qed.

(** C3: for 12-element [q] and [f] the result has 12 elements, and element
    [j] of the slice of leg [k] (RL, FL, RR, FR at offsets 0, 3, 6, 9) is
    column [j] of that leg's Jacobian, taken at the leg's slice of [q], times
    the leg's slice of [f]: the transpose of the Jacobian applied to the
    force. *)
Theorem jacobianTransposeControl_is_transposed_jacobian_times_force (q f : vec) :
  length q = 12%nat → length f = 12%nat →
  ∃ tau, jacobianTransposeControl K q f = Some tau ∧ length tau = 12%nat ∧
    ∀ k leg, leg_order !! k = Some leg →
      ∃ cfg qk jac,
        link_map_ K !! leg = Some cfg ∧ rows q (3 * k) (3 * k + 2) = Some qk ∧
        leg_jacobian cfg.2 qk = Some jac ∧
        ∀ j, (j < 3)%nat →
          ∃ j0 j1 j2 f0 f1 f2 tj,
            mat_at jac 0 j = Some j0 ∧ mat_at jac 1 j = Some j1 ∧ mat_at jac 2 j = Some j2 ∧
            at_ f (3 * k) = Some f0 ∧ at_ f (3 * k + 1) = Some f1 ∧
            at_ f (3 * k + 2) = Some f2 ∧
            at_ tau (3 * k + j) = Some tj ∧ tj = j0 * f0 + j1 * f1 + j2 * f2.
Proof.
  intros Hq Hf.
  apply vec12_inv in Hq as (q0 & q1 & q2 & q3 & q4 & q5 & q6 & q7 & q8 & q9 & q10 & q11 & ->).
  apply vec12_inv in Hf as (f0 & f1 & f2 & f3 & f4 & f5 & f6 & f7 & f8 & f9 & f10 & f11 & ->).
  unfold jacobianTransposeControl.
  rewrite link_map_RL, link_map_FL, link_map_RR, link_map_FR.
  eexists. split; [real_compute; reflexivity|]. split; [reflexivity|].
  intros k leg Hk.
  destruct k as [|[|[|[|k]]]]; simpl in Hk; try done; injection Hk as <-.
  all: eexists _, _, _.
  all: split;
    [first [apply link_map_RL | apply link_map_FL | apply link_map_RR | apply link_map_FR]|].
  all: split; [reflexivity|].
  all: split; [apply leg_jacobian_3|].
  all: intros j Hj; destruct j as [|[|[|j]]]; try lia.
  all: eexists _, _, _, _, _, _, _; repeat (split; [reflexivity|]); ring.
Qed.

(** *** gait_visualizer_node.cpp: footTrajViz *)

Lemma footTrajViz_phase_iter (stance_phase : float) (i : nat) :
  footTrajViz_phase stance_phase i
  = Nat.iter i (λ p, (p + footTrajViz_dt stance_phase)%float) stance_phase.
Proof. induction i as [|i IH]; [reflexivity|]. simpl. by rewrite IH. Qed.

Lemma footTrajViz_loop_spec mgr leg_name (t_swing dt : float) n :
  (∀ phase, length (position (referenceState mgr leg_name phase)) = 3%nat) →
  ∀ i phase markers, length markers = (i + n)%nat →
  ∃ markers',
    footTrajViz_loop mgr leg_name t_swing dt n i phase markers = Some markers' ∧
    length markers' = length markers ∧
    (∀ k, (k < i)%nat → markers' !! k = markers !! k) ∧
    ∀ k, (k < n)%nat →
      ∃ px py pz,
        position (referenceState mgr leg_name
                    (double_value (Nat.iter k (λ p, (p + dt)%float) phase))) = [px; py; pz] ∧
        markers' !! (i + k)%nat = Some (trajectory_marker leg_name t_swing (i + k) px py pz).
Proof.
  intros Hpos. induction n as [|n IH]; intros i phase markers Hlen.
  - exists markers. split; [done|]. split; [done|]. split; [done|]. intros; lia.
  - simpl. destruct (lookup_lt_is_Some_2 markers i) as [m0 ->]; [lia|]. simpl.
    destruct (vec3_inv _ (Hpos (double_value phase))) as (px & py & pz & Hp).
    rewrite Hp. simpl.
    destruct (IH (S i) (phase + dt)%float
                (<[i := trajectory_marker leg_name t_swing i px py pz]> markers))
      as (markers' & -> & Hlen' & Hbefore & Hafter).
    { rewrite length_insert. lia. }
    exists markers'. rewrite length_insert in Hlen'.
    split; [done|]. split; [done|]. split.
    + intros k Hk. rewrite Hbefore by lia. apply list_lookup_insert_ne. lia.
    + intros [|k] Hk.
      * exists px, py, pz. rewrite Nat.add_0_r. simpl Nat.iter.
        split; [done|]. rewrite Hbefore by lia. apply list_lookup_insert_eq. lia.
      * destruct (Hafter k) as (qx & qy & qz & Hq & Hm); [lia|].
        exists qx, qy, qz. rewrite Nat.iter_succ_r.
        split; [done|]. replace (i + S k)%nat with (S i + k)%nat by lia. done.
Qed.

(** The markers of [footTrajViz]: marker [i] is [trajectory_marker] at the
    reference position of the phase of iteration [i]. *)
Lemma footTrajViz_markers mgr leg_name (stance_phase t_swing : float) :
  (∀ phase, length (position (referenceState mgr leg_name phase)) = 3%nat) →
  ∃ markers,
    footTrajViz mgr leg_name stance_phase t_swing = Some markers ∧
    length markers = 30%nat ∧
    ∀ i, (i < 30)%nat →
      ∃ px py pz,
        position (referenceState mgr leg_name
                    (double_value (footTrajViz_phase stance_phase i))) = [px; py; pz] ∧
        markers !! i = Some (trajectory_marker leg_name t_swing i px py pz).
Proof.
  intros Hpos. unfold footTrajViz.
  destruct (footTrajViz_loop_spec mgr leg_name t_swing (footTrajViz_dt stance_phase)
              steps Hpos 0 stance_phase (replicate steps marker_default))
    as (markers & Hrun & Hlen & _ & Hat).
  { by rewrite length_replicate. }
  exists markers. split; [done|]. rewrite length_replicate in Hlen. split; [done|].
  intros i Hi. destruct (Hat i Hi) as (px & py & pz & Hp & Hm).
  rewrite <- footTrajViz_phase_iter in Hp. exists px, py, pz. split; assumption.
Qed.

(** C10 (amended): for a stance phase in [[0, 1)] (and foot positions of
    three coordinates) [footTrajViz] returns 30 markers; marker [i] has id
    [i], the leg name as namespace, frame "world" and the position of the
    reference trajectory at the phase of iteration [i], which is
    [stance_phase] for marker 0 and the phase of marker [i - 1] plus
    [dt = (1.0 - stance_phase) / 30] for the others, each sum and the
    quotient rounded to a double; it is red for FL and RR and blue for every
    other leg.  Nothing is said about these phases staying below 1: the
    last of them can exceed it. *)
Theorem footTrajViz_samples_swing_trajectory mgr (leg_name : string)
    (stance_phase t_swing : float) :
  (0 <=? stance_phase)%float = true → (stance_phase <? 1)%float = true →
  (∀ phase, length (position (referenceState mgr leg_name phase)) = 3%nat) →
  ∃ markers,
    footTrajViz mgr leg_name stance_phase t_swing = Some markers ∧
    length markers = 30%nat ∧
    footTrajViz_phase stance_phase 0 = stance_phase ∧
    (∀ i, footTrajViz_phase stance_phase (S i)
          = (footTrajViz_phase stance_phase i + (1.0 - stance_phase) / 30.0)%float) ∧
    ∀ i, (i < 30)%nat →
      ∃ m px py pz,
        markers !! i = Some m ∧
        position (referenceState mgr leg_name
                    (double_value (footTrajViz_phase stance_phase i))) = [px; py; pz] ∧
        pose_position m = (px, py, pz) ∧
        id m = Z.of_nat i ∧ ns m = leg_name ∧ frame_id m = "world" ∧
        (leg_name = "FL" ∨ leg_name = "RR" → color m = (1, 0, 0, 1)) ∧
        (leg_name ≠ "FL" → leg_name ≠ "RR" → color m = (0, 0, 1, 1)).
Proof.
  intros _ _ Hpos.
  destruct (footTrajViz_markers mgr leg_name stance_phase t_swing Hpos)
    as (markers & Hrun & Hlen & Hat).
  exists markers. split; [done|]. split; [done|].
  split; [reflexivity|]. split; [reflexivity|].
  intros i Hi. destruct (Hat i Hi) as (px & py & pz & Hp & Hm).
  eexists _, px, py, pz. split; [exact Hm|]. split; [done|]. simpl.
  repeat split.
  - intros [-> | ->]; simpl; repeat (apply (f_equal2 pair)); lra.
  - intros H1 H2. apply String.eqb_neq in H1, H2. rewrite H1, H2. simpl.
    repeat (apply (f_equal2 pair)); lra.
Qed.

(** *** Events and results of the node's computations *)

Lemma events_bind {A B : Type} (m : Pub A) (k : A → Pub B) :
  events (m ≫= k) = events m ++ from_option (λ a, events (k a)) [] (result m).
Proof.
  unfold mbind, Pub_bind. destruct (result m); simpl; [done|]. by rewrite app_nil_r.
Qed.

Lemma result_bind {A B : Type} (m : Pub A) (k : A → Pub B) :
  result (m ≫= k) = result m ≫= λ a, result (k a).
Proof. unfold mbind at 1, Pub_bind. by destruct (result m). Qed.

Lemma result_bind_Some {A B : Type} (m : Pub A) (k : A → Pub B) (b : B) :
  result (m ≫= k) = Some b → ∃ a, result m = Some a ∧ result (k a) = Some b.
Proof.
  rewrite result_bind. destruct (result m) as [a|]; simpl; [|done]. intros H. by exists a.
Qed.

Lemma elem_of_events_bind {A B : Type} (m : Pub A) (k : A → Pub B) (e : Event) :
  e ∈ events (m ≫= k) ↔ e ∈ events m ∨ ∃ a, result m = Some a ∧ e ∈ events (k a).
Proof.
  rewrite events_bind, elem_of_app. destruct (result m) as [a|]; simpl.
  - split; (intros [H|H]; [by left|right]).
    + by exists a.
    + by destruct H as (? & [= <-] & ?).
  - rewrite elem_of_nil. split; (intros [H|H]; [by left|]); [done|]. by destruct H as (? & ? & ?).
Qed.

Lemma events_may_throw {A : Type} (o : option A) : events (may_throw o) = [].
Proof. done. Qed.

Lemma elem_of_events_for_each {A : Type} (l : list A) (body : A → Pub unit) (e : Event) :
  e ∈ events (for_each l body) → ∃ a, a ∈ l ∧ e ∈ events (body a).
Proof.
  induction l as [|a l IH]; simpl.
  - by intros ?%elem_of_nil.
  - intros [H | (_ & _ & H)]%elem_of_events_bind.
    + exists a. split; [left|done].
    + destruct (IH H) as (a' & ? & ?). exists a'. split; [by right|done].
Qed.

Lemma for_each_completed {A : Type} (l : list A) (body : A → Pub unit) (a : A) :
  is_Some (result (for_each l body)) → a ∈ l →
  is_Some (result (body a)) ∧ ∀ e, e ∈ events (body a) → e ∈ events (for_each l body).
Proof.
  induction l as [|a' l IH]; simpl; intros [u Hu] Hin.
  - by apply elem_of_nil in Hin.
  - apply result_bind_Some in Hu as ([] & Ha' & Hrest).
    apply elem_of_cons in Hin as [-> | Hin].
    + split; [by eexists|]. intros e He. apply elem_of_events_bind. by left.
    + destruct IH as [Hs He]; [by eexists|done|]. split; [done|].
      intros e Hin'. apply elem_of_events_bind. right. exists (). split; [done|]. by apply He.
Qed.

Lemma for_each_returns {A : Type} (l : list A) (body : A → Pub unit) :
  (∀ a, a ∈ l → is_Some (result (body a))) → is_Some (result (for_each l body)).
Proof.
  induction l as [|a l IH]; intros Hall; simpl; [by eexists|].
  rewrite result_bind. destruct (Hall a) as [[] ->]; [left|]. simpl.
  apply IH. intros a' Hin. apply Hall. by right.
Qed.

(** *** gait_visualizer_node.cpp: the maps built at startup *)

Lemma lookup_emplace {V : Type} (k k' : string) (v : V) (m : gmap string V) :
  emplace k v m !! k' =
    match m !! k' with
    | Some w => Some w
    | None => if decide (k = k') then Some v else None
    end.
Proof.
  unfold emplace. destruct (m !! k) as [w|] eqn:Hk.
  - destruct (m !! k') eqn:Hk'; [done|]. case_decide; [congruence|done].
  - rewrite lookup_insert. case_decide as Hd.
    + subst k'. by rewrite Hk.
    + by destruct (m !! k').
Qed.

Lemma elem_of_in_key_order {V : Type} (m : gmap string V) (k : string) (v : V) :
  (k, v) ∈ in_key_order m ↔ m !! k = Some v.
Proof. unfold in_key_order. by rewrite merge_sort_Permutation, elem_of_map_to_list. Qed.

(** Every name of a list has a first occurrence. *)
Lemma first_occurrence (names : list string) (k : nat) (leg : string) :
  names !! k = Some leg →
  ∃ k', (k' ≤ k)%nat ∧ names !! k' = Some leg ∧ (leg ∉ take k' names).
Proof.
  revert k. induction names as [|n names IH]; intros k Hk; [done|].
  destruct (decide (n = leg)) as [->|Hne].
  - exists 0%nat. split; [lia|]. split; [done|]. simpl. apply not_elem_of_nil.
  - destruct k as [|k]; [simpl in Hk; congruence|].
    destruct (IH k Hk) as (k' & Hle & Hk' & Hfresh).
    exists (S k'). split; [lia|]. split; [done|]. simpl.
    apply not_elem_of_cons. split; [congruence|done].
Qed.

(** With distinct leg names, leg [k] is mapped to elements [3k .. 3k+2]. *)
Lemma leg_map_lookup {V : Type} (names : list string) (src : list V)
    (m : gmap string (list V)) (k : nat) (leg : string) :
  leg_map names src = Some m →
  (k < 4)%nat → names !! k = Some leg → leg ∉ take k names →
  ∃ v, slice3 src k = Some v ∧ m !! leg = Some v.
Proof.
  unfold leg_map, emplace_leg. intros Hm Hk Hleg Hfresh.
  destruct (slice3 src 0) as [v0|] eqn:H0, (slice3 src 1) as [v1|] eqn:H1,
    (slice3 src 2) as [v2|] eqn:H2, (slice3 src 3) as [v3|] eqn:H3,
    names as [|n0 [|n1 [|n2 [|n3 rest]]]];
    cbn [lookup list_lookup mbind option_bind] in Hm;
    rewrite ?H0, ?H1, ?H2, ?H3 in Hm; cbn [mbind option_bind] in Hm;
    rewrite ?H0, ?H1, ?H2, ?H3 in Hm; cbn [mbind option_bind] in Hm;
    rewrite ?H0, ?H1, ?H2, ?H3 in Hm; cbn [mbind option_bind] in Hm;
    rewrite ?H0, ?H1, ?H2, ?H3 in Hm; cbn [mbind option_bind] in Hm; try done.
  injection Hm as <-.
  rewrite !lookup_emplace, lookup_empty.
  destruct k as [|[|[|[|k]]]]; [| | | |lia]; simpl in Hleg, Hfresh; injection Hleg as <-;
    rewrite ?H0, ?H1, ?H2, ?H3; eexists; (split; [reflexivity|]);
    repeat (rewrite not_elem_of_cons in Hfresh; destruct Hfresh as [? Hfresh]);
    repeat case_decide; congruence.
Qed.

(** Each of the first four leg names is a key of the map. *)
Lemma leg_map_is_key {V : Type} (names : list string) (src : list V)
    (m : gmap string (list V)) (k : nat) (leg : string) :
  leg_map names src = Some m → (k < 4)%nat → names !! k = Some leg → is_Some (m !! leg).
Proof.
  intros Hm Hk Hleg.
  destruct (first_occurrence names k leg Hleg) as (k' & Hle & Hk' & Hfresh).
  destruct (leg_map_lookup names src m k' leg Hm) as (v & _ & Hv); [lia|done|done|].
  by exists v.
Qed.

Lemma leg_map_is_Some {V : Type} (names : list string) (src : list V) :
  (4 ≤ length names)%nat → (12 ≤ length src)%nat → is_Some (leg_map names src).
Proof.
  intros Hn Hs.
  do 4 (destruct names as [|? names]; [simpl in Hn; lia|]).
  do 12 (destruct src as [|? src]; [simpl in Hs; lia|]).
  by eexists.
Qed.

(** *** gait_visualizer_node.cpp: main up to the loop *)

Lemma result_may_throw_Some {A : Type} (o : option A) (a : A) :
  result (may_throw o) = Some a → o = Some a.
Proof. done. Qed.

(** What the node holds when [startup] returns. *)
Lemma startup_inv (cfg : Config) (nd : Node) (mgr : FootTrajectoryManager) :
  result (startup cfg) = Some (nd, mgr) →
  leg_map (leg_names cfg) (joint_names cfg) = Some (leg_joints_name_map nd) ∧
  leg_map (leg_names cfg) (init_joint_positions cfg) = Some (leg_joints_init_positions_map nd) ∧
  x nd = robot_position cfg ∧
  stance_phase nd = (t_stance cfg / (t_swing cfg + t_stance cfg))%float.
Proof.
  unfold startup. intros H.
  apply result_bind_Some in H as (_ & _ & H).
  apply result_bind_Some in H as (names & Hnames%result_may_throw_Some & H).
  apply result_bind_Some in H as (inits & Hinits%result_may_throw_Some & H).
  apply result_bind_Some in H as (Rwb' & _ & H).
  do 6 (apply result_bind_Some in H as (? & _ & H)).
  injection H as <- _. done.
Qed.

(** [startup] returns whenever the lists of the configuration are long
    enough and the robot position has three coordinates; the number of joints
    that was configured plays no part. *)
Lemma startup_returns (cfg : Config) :
  (4 ≤ length (leg_names cfg))%nat → (12 ≤ length (joint_names cfg))%nat →
  (12 ≤ length (init_joint_positions cfg))%nat →
  (4 ≤ length (robot_orientation cfg))%nat → length (robot_position cfg) = 3%nat →
  is_Some (result (startup cfg)).
Proof.
  intros Hlegs Hnames Hinits Hq Hx.
  destruct (leg_map_is_Some _ _ Hlegs Hnames) as [names Hn].
  destruct (leg_map_is_Some _ _ Hlegs Hinits) as [inits Hi].
  unfold startup. rewrite result_bind.
  assert (∀ b : bool, result (if b then emit (LogError invalid_joint_configuration) ≫= λ _,
            emit (LogError "Num(joints): %u, Num(joint names): %lu, Num(joint initial positions): %lu")
          else mret ()) = Some ()) as -> by (by intros []).
  cbn [mbind option_bind]. rewrite result_bind. cbn [result may_throw]. rewrite Hn.
  cbn [mbind option_bind]. rewrite result_bind. cbn [result may_throw]. rewrite Hi.
  cbn [mbind option_bind].
  destruct (robot_orientation cfg) as [|qx [|qy [|qz [|qw ?]]]]; [simpl in Hq; lia..|].
  destruct (vec3_inv _ Hx) as (x0 & x1 & x2 & ->).
  destruct (init_joint_positions cfg) as [|q0 [|q1 [|q2 [|q3 [|q4 [|q5 [|q6 [|q7 [|q8 [|q9
    [|q10 [|q11 rest]]]]]]]]]]]]; [simpl in Hinits; lia..|].
  destruct (forwardKinematics_12 q0 q1 q2 q3 q4 q5 q6 q7 q8 q9 q10 q11 rest)
    as (p0 & p1 & p2 & p3 & H0 & H1 & H2 & H3 & Hfk).
  unfold trans_rl, trans_fl, trans_rr, trans_fr, left_links, right_links in H0, H1, H2, H3.
  rewrite leg_forward_kinematics_3 in H0, H1, H2, H3.
  injection H0 as <-. injection H1 as <-. injection H2 as <-. injection H3 as <-.
  rewrite !result_bind. cbn [result may_throw]. rewrite Hfk.
  lazy -[Rplus Rminus Rmult Rdiv Ropp Rinv IZR INR sin cos xbh ybh zbh l1 l2 l3 emplace is_Some].
  by eexists.
Qed.

(** The configuration check only writes to the log. *)
Lemma startup_logs_mismatch (cfg : Config) :
  to_unsigned (num_joints_param cfg) ≠ Z.of_nat (length (joint_names cfg)) ∨
  to_unsigned (num_joints_param cfg) ≠ Z.of_nat (length (init_joint_positions cfg)) →
  LogError invalid_joint_configuration ∈ events (startup cfg).
Proof.
  intros H. unfold startup. apply elem_of_events_bind. left.
  destruct (negb _ || negb _)%bool eqn:Hb.
  - apply elem_of_events_bind. left. simpl. left.
  - apply orb_false_elim in Hb as [H1%negb_false_iff%Z.eqb_eq H2%negb_false_iff%Z.eqb_eq].
    destruct H; done.
Qed.

(** *** gait_visualizer_node.cpp: one cycle of the loop *)

(** A joint state that a cycle publishes for a leg comes from the iteration
    of the "publish joint states" loop at that leg's entry of the gait map. *)
Lemma cycle_joint_state_event nd mgr (gait_map : GaitMap) (leg : string) (msg : JointState) :
  PublishJointState leg msg ∈ events (cycle nd mgr gait_map) →
  ∃ mgr' st, gait_map !! leg = Some st ∧
    PublishJointState leg msg ∈ events (publish_leg nd mgr' gait_map (leg, st)).
Proof.
  unfold cycle. intros [H | (mgr' & _ & H)]%elem_of_events_bind.
  - exfalso. case_decide; [by apply elem_of_nil in H|].
    apply elem_of_events_bind in H as [H%elem_of_nil | (? & _ & H)]; [done|].
    apply elem_of_events_bind in H as [H | (? & _ & H)]; [|by apply elem_of_nil in H].
    apply elem_of_events_for_each in H as (? & _ & H).
    apply elem_of_events_bind in H as [H%elem_of_nil | (? & _ & H)]; [done|].
    by apply list_elem_of_singleton in H.
  - apply elem_of_events_bind in H as [H | (? & _ & H)]; [|by apply elem_of_nil in H].
    apply elem_of_events_for_each in H as ([leg' st] & Hin%elem_of_in_key_order & H).
    exists mgr', st.
    assert (leg' = leg) as ->; [|done].
    unfold publish_leg in H. destruct (st.1).
    + apply elem_of_events_bind in H as [H%elem_of_nil | (? & _ & H)]; [done|].
      apply elem_of_events_bind in H as [H%elem_of_nil | (? & _ & H)]; [done|].
      apply list_elem_of_singleton in H. congruence.
    + apply elem_of_events_bind in H as [H%elem_of_nil | (? & _ & H)]; [done|].
      apply elem_of_events_bind in H as [H%elem_of_nil | (? & _ & H)]; [done|].
      apply elem_of_events_bind in H as [H%elem_of_nil | (? & _ & H)]; [done|].
      apply elem_of_events_bind in H as [H%elem_of_nil | (? & _ & H)]; [done|].
      apply list_elem_of_singleton in H. congruence.
Qed.

(** A cycle that runs to its end has published for every leg of the gait
    map. *)
Lemma cycle_completed nd mgr (gait_map : GaitMap) (leg : string) (st : LegState * R) :
  is_Some (result (cycle nd mgr gait_map)) → gait_map !! leg = Some st →
  ∃ mgr', ∀ e, e ∈ events (publish_leg nd mgr' gait_map (leg, st)) →
               e ∈ events (cycle nd mgr gait_map).
Proof.
  unfold cycle. intros [r Hr] Hleg.
  apply result_bind_Some in Hr as (mgr' & Hplan & Hr).
  apply result_bind_Some in Hr as ([] & Hloop & _).
  exists mgr'. intros e He.
  apply elem_of_events_bind. right. exists mgr'. split; [done|].
  apply elem_of_events_bind. left.
  eapply for_each_completed; [by eexists| |done]. by apply elem_of_in_key_order.
Qed.

(** The stance branch. *)
Lemma publish_leg_stance nd mgr (gait_map : GaitMap) (leg : string) (phase : R)
    (name : list string) (q : list R) :
  leg_joints_name_map nd !! leg = Some name →
  leg_joints_init_positions_map nd !! leg = Some q →
  publish_leg nd mgr gait_map (leg, (stance, phase)) =
    MkPub [PublishJointState leg {| js_stamp := ros_Time_now; js_name := name;
                                    js_position := q |}] (Some ()).
Proof. intros Hn Hq. unfold publish_leg. simpl. rewrite Hn, Hq. reflexivity. Qed.

(** [startup] writes to the log only, and [run] passes the same node to
    every cycle. *)
Lemma startup_events (cfg : Config) (e : Event) :
  e ∈ events (startup cfg) → ∃ line, e = LogError line.
Proof.
  unfold startup. intros [H | (_ & _ & H)]%elem_of_events_bind.
  - destruct (negb _ || negb _)%bool; [|by apply elem_of_nil in H].
    apply elem_of_events_bind in H as [H | (_ & _ & H)];
      apply list_elem_of_singleton in H; by eexists.
  - exfalso.
    do 9 (apply elem_of_events_bind in H as [H%elem_of_nil | (? & _ & H)]; [done|]).
    by apply elem_of_nil in H.
Qed.

Lemma run_joint_state_event nd mgr (schedule : list GaitMap) (leg : string) (msg : JointState) :
  PublishJointState leg msg ∈ events (run nd mgr schedule) →
  ∃ mgr' gait_map, gait_map ∈ schedule ∧
    PublishJointState leg msg ∈ events (cycle nd mgr' gait_map).
Proof.
  revert mgr. induction schedule as [|gm rest IH]; intros mgr; simpl.
  - by intros ?%elem_of_nil.
  - intros [H | (mgr' & _ & H)]%elem_of_events_bind.
    + exists mgr, gm. split; [left|done].
    + destruct (IH _ H) as (mgr'' & gm' & ? & ?). exists mgr'', gm'. split; [by right|done].
Qed.

Lemma main_joint_state_event (cfg : Config) (schedule : list GaitMap) (leg : string)
    (msg : JointState) :
  PublishJointState leg msg ∈ events (main cfg schedule) →
  ∃ nd mgr0 mgr gait_map, result (startup cfg) = Some (nd, mgr0) ∧ gait_map ∈ schedule ∧
    PublishJointState leg msg ∈ events (cycle nd mgr gait_map).
Proof.
  unfold main. intros [H | ([nd mgr0] & Hs & H)]%elem_of_events_bind.
  - by apply startup_events in H as (? & ?).
  - apply run_joint_state_event in H as (mgr & gm & ? & ?). by exists nd, mgr0, mgr, gm.
Qed.

(** With fewer than twelve joint names or initial positions the [at] calls
    that build the maps throw: [main] ends before the loop and publishes no
    joint state. *)
Lemma leg_map_short {V : Type} (names : list string) (src : list V) :
  (length src < 12)%nat → leg_map names src = None.
Proof.
  intros Hlen. destruct (leg_map names src) as [m|] eqn:Hm; [exfalso|done].
  unfold leg_map, emplace_leg in Hm.
  destruct (names !! 0%nat), (slice3 src 0), (names !! 1%nat), (slice3 src 1),
    (names !! 2%nat), (slice3 src 2), (names !! 3%nat), (slice3 src 3) as [v|] eqn:H3;
    cbn [mbind option_bind] in Hm; try done.
  unfold slice3 in H3.
  destruct (src !! (3 * 3 + 2)%nat) eqn:Hlast.
  - apply lookup_lt_Some in Hlast. lia.
  - destruct (src !! (3 * 3)%nat), (src !! (3 * 3 + 1)%nat); done.
Qed.

Lemma short_configuration_never_enters_loop (cfg : Config) (schedule : list GaitMap) :
  (length (joint_names cfg) < 12)%nat ∨ (length (init_joint_positions cfg) < 12)%nat →
  result (main cfg schedule) = None ∧
  ∀ leg msg, PublishJointState leg msg ∉ events (main cfg schedule).
Proof.
  intros Hshort.
  assert (result (startup cfg) = None) as Hnone.
  { destruct (result (startup cfg)) as [[nd mgr]|] eqn:Hs; [exfalso|done].
    apply startup_inv in Hs as (Hn & Hi & _).
    destruct Hshort as [H|H]; apply (leg_map_short (leg_names cfg)) in H; congruence. }
  split.
  - unfold main. rewrite result_bind, Hnone. done.
  - intros leg msg (nd & mgr0 & _ & _ & Hs & _)%main_joint_state_event. congruence.
Qed.

(** C4: [startup] returns for a configuration of the right shape, and then,
    for the [k]-th of the distinct leg names, the stance branch publishes one
    joint state for the leg and returns: the message carries elements
    [3k .. 3k+2] of the configured joint names and of the configured initial
    joint positions.  Every joint state that a cycle publishes for that leg
    while it is in stance carries these positions, whatever the gait map says
    about the other legs and whatever the planner and the trajectory manager
    do; a cycle that runs to its end publishes it; a cycle for which the
    planner plans no foothold and whose gait map has only legs in stance,
    each one of the first four configured leg names, does run to its end and
    publishes that message; and over a whole run in which the leg stays in
    stance every joint state of the leg is that same command. *)
Theorem stance_leg_command_is_initial_configuration (cfg : Config) (k : nat) (leg : string) :
  (12 ≤ length (joint_names cfg))%nat → (12 ≤ length (init_joint_positions cfg))%nat →
  (4 ≤ length (robot_orientation cfg))%nat → length (robot_position cfg) = 3%nat →
  (4 ≤ length (leg_names cfg))%nat →
  (k < 4)%nat → leg_names cfg !! k = Some leg → leg ∉ take k (leg_names cfg) →
  ∃ nd mgr0 q0 q1 q2 n0 n1 n2,
    result (startup cfg) = Some (nd, mgr0) ∧
    init_joint_positions cfg !! (3 * k)%nat = Some q0 ∧
    init_joint_positions cfg !! (3 * k + 1)%nat = Some q1 ∧
    init_joint_positions cfg !! (3 * k + 2)%nat = Some q2 ∧
    joint_names cfg !! (3 * k)%nat = Some n0 ∧
    joint_names cfg !! (3 * k + 1)%nat = Some n1 ∧
    joint_names cfg !! (3 * k + 2)%nat = Some n2 ∧
    (∀ mgr (gait_map : GaitMap) phase,
       publish_leg nd mgr gait_map (leg, (stance, phase)) =
         MkPub [PublishJointState leg {| js_stamp := ros_Time_now; js_name := [n0; n1; n2];
                                         js_position := [q0; q1; q2] |}] (Some ())) ∧
    (∀ mgr (gait_map : GaitMap) phase,
       gait_map !! leg = Some (stance, phase) →
       (∀ msg, PublishJointState leg msg ∈ events (cycle nd mgr gait_map) →
               js_position msg = [q0; q1; q2]) ∧
       (is_Some (result (cycle nd mgr gait_map)) →
        ∃ msg, PublishJointState leg msg ∈ events (cycle nd mgr gait_map)) ∧
       (FootPlanner_positions (node_t_stance nd) (Rwb nd) (x nd) (xdot nd) (xdot_d nd)
          (w_d nd) gait_map = ∅ →
        (∀ leg' st, gait_map !! leg' = Some st →
                    st.1 = stance ∧ ∃ k', (k' < 4)%nat ∧ leg_names cfg !! k' = Some leg') →
        is_Some (result (cycle nd mgr gait_map)) ∧
        PublishJointState leg {| js_stamp := ros_Time_now; js_name := [n0; n1; n2];
                                 js_position := [q0; q1; q2] |}
          ∈ events (cycle nd mgr gait_map))) ∧
    (∀ schedule : list GaitMap,
       (∀ gait_map : GaitMap, gait_map ∈ schedule →
                              ∃ phase, gait_map !! leg = Some (stance, phase)) →
       ∀ msg, PublishJointState leg msg ∈ events (main cfg schedule) →
              js_position msg = [q0; q1; q2]).
Proof.
  intros Hjn Hjp Hq Hx Hlegs Hk Hleg Hfresh.
  destruct (startup_returns cfg Hlegs Hjn Hjp Hq Hx) as [[nd mgr0] Hstart].
  destruct (startup_inv _ _ _ Hstart) as (Hnames & Hinits & _).
  destruct (leg_map_lookup _ _ _ k leg Hnames Hk Hleg Hfresh) as (name & Hnslice & Hname).
  destruct (leg_map_lookup _ _ _ k leg Hinits Hk Hleg Hfresh) as (q & Hslice & Hq0).
  unfold slice3 in Hslice, Hnslice.
  destruct (init_joint_positions cfg !! (3 * k)%nat) as [q0|]; [|done].
  destruct (init_joint_positions cfg !! (3 * k + 1)%nat) as [q1|]; [|done].
  destruct (init_joint_positions cfg !! (3 * k + 2)%nat) as [q2|]; [|done].
  destruct (joint_names cfg !! (3 * k)%nat) as [n0|]; [|done].
  destruct (joint_names cfg !! (3 * k + 1)%nat) as [n1|]; [|done].
  destruct (joint_names cfg !! (3 * k + 2)%nat) as [n2|]; [|done].
  injection Hslice as <-. injection Hnslice as <-.
  exists nd, mgr0, q0, q1, q2, n0, n1, n2. do 7 (split; [done|]).
  assert (∀ mgr (gait_map : GaitMap) phase msg,
    gait_map !! leg = Some (stance, phase) →
    PublishJointState leg msg ∈ events (cycle nd mgr gait_map) →
    js_position msg = [q0; q1; q2]) as Hcycle.
  { intros mgr gait_map phase msg Hstance (mgr' & st & Hst & Hev)%cycle_joint_state_event.
    rewrite Hstance in Hst. injection Hst as <-.
    rewrite (publish_leg_stance _ _ _ _ _ _ _ Hname Hq0) in Hev.
    apply list_elem_of_singleton in Hev. by injection Hev as ->. }
  split; [intros mgr gait_map phase; exact (publish_leg_stance _ _ _ _ _ _ _ Hname Hq0)|].
  split.
  - intros mgr gait_map phase Hstance. split; [intros msg; by eapply Hcycle|].
    assert (is_Some (result (cycle nd mgr gait_map)) →
            PublishJointState leg {| js_stamp := ros_Time_now; js_name := [n0; n1; n2];
                                     js_position := [q0; q1; q2] |}
              ∈ events (cycle nd mgr gait_map)) as Hpublished.
    { intros Hdone. destruct (cycle_completed _ _ _ _ _ Hdone Hstance) as (mgr' & Hsub).
      apply Hsub. rewrite (publish_leg_stance _ _ _ _ _ _ _ Hname Hq0). left. }
    split; [intros Hdone; eexists; exact (Hpublished Hdone)|].
    intros Hplan Hall.
    assert (is_Some (result (cycle nd mgr gait_map))) as Hdone; [|by split; [|apply Hpublished]].
    unfold cycle. rewrite Hplan. rewrite decide_True by reflexivity.
    rewrite result_bind. cbn [result mret Pub_ret mbind option_bind]. rewrite result_bind.
    destruct (for_each_returns (in_key_order gait_map)
                (publish_leg nd (referenceStates mgr gait_map) gait_map)) as [[] ->];
      [|by eexists].
    intros [leg' [state' phase']] Hin%elem_of_in_key_order.
    destruct (Hall _ _ Hin) as (Hst & k' & Hk' & Hleg'). simpl in Hst. subst state'.
    destruct (leg_map_is_key _ _ _ k' leg' Hnames Hk' Hleg') as [name' Hname'].
    destruct (leg_map_is_key _ _ _ k' leg' Hinits Hk' Hleg') as [q' Hq'].
    rewrite (publish_leg_stance _ _ _ _ _ _ _ Hname' Hq'). by eexists.
  - intros schedule Hsched msg (nd' & mgr0' & mgr & gm & Hs & Hgm & Hev)%main_joint_state_event.
    rewrite Hstart in Hs. injection Hs as <- <-.
    destruct (Hsched gm Hgm) as [phase Hstance]. by eapply Hcycle.
Qed.

(** *** gait_visualizer_node.cpp: the swing branch *)

(** What the swing branch hands to the inverse position solve: a joint state
    published for a leg in swing is the solve of [swing_foot_position] at the
    reference position of the leg's phase. *)
Lemma publish_leg_swing nd mgr (gait_map : GaitMap) (leg : string) (phase : R)
    (msg : JointState) :
  PublishJointState leg msg ∈ events (publish_leg nd mgr gait_map (leg, (swing, phase))) →
  ∃ st p,
    gait_map !! leg = Some st ∧
    swing_foot_position (Rwb nd) (x nd) (position (referenceState mgr leg st.2)) = Some p ∧
    legInverseKinematics (kinematics nd) leg p = Some (js_position msg).
Proof.
  unfold publish_leg. simpl. intros H.
  apply elem_of_events_bind in H as [H%elem_of_nil | (st & Hst & H)]; [done|].
  apply elem_of_events_bind in H as [H%elem_of_nil | (p & Hp & H)]; [done|].
  apply elem_of_events_bind in H as [H%elem_of_nil | (q & Hq & H)]; [done|].
  apply elem_of_events_bind in H as [H%elem_of_nil | (name & Hname & H)]; [done|].
  apply list_elem_of_singleton in H. injection H as ->.
  exists st, p. by repeat split.
Qed.

(** [world_to_body] undoes [body_to_world], the transform of lines 218 to
    221, for every invertible [Rwb]. *)
Lemma world_to_body_inverts_body_to_world (r0 r1 r2 r3 r4 r5 r6 r7 r8 x0 x1 x2 p0 p1 p2 : R) :
  let Rwb := Mat 3 3 [r0; r1; r2; r3; r4; r5; r6; r7; r8] in
  det33 Rwb ≠ 0 →
  ∃ w q0 q1 q2,
    body_to_world Rwb [x0; x1; x2] [p0; p1; p2] = Some w ∧
    world_to_body Rwb [x0; x1; x2] w = Some [q0; q1; q2] ∧
    q0 = p0 ∧ q1 = p1 ∧ q2 = p2.
Proof.
  intros Rwb Hdet. unfold world_to_body, body_to_world, inv.
  destruct (Req_dec_T (det33 Rwb) 0) as [|_]; [done|].
  eexists _, _, _, _. split; [reflexivity|]. split; [reflexivity|].
  revert Hdet. unfold Rwb. real_compute. intros Hdet. repeat split; field; exact Hdet.
Qed.

(** ** Further properties of kinematics.cpp *)

(** X1: the two leg functions throw exactly when one of their vectors has
    fewer than three elements, and read the first three elements only. *)
Theorem leg_functions_defined_iff_three_elements (trans_bh links joints : vec) :
  (is_Some (leg_forward_kinematics trans_bh links joints) ↔
     (3 ≤ length trans_bh)%nat ∧ (3 ≤ length links)%nat ∧ (3 ≤ length joints)%nat) ∧
  (is_Some (leg_jacobian links joints) ↔ (3 ≤ length links)%nat ∧ (3 ≤ length joints)%nat) ∧
  leg_forward_kinematics trans_bh links joints
    = leg_forward_kinematics (take 3 trans_bh) (take 3 links) (take 3 joints) ∧
  leg_jacobian links joints = leg_jacobian (take 3 links) (take 3 joints).
Proof.
  destruct trans_bh as [|b0 [|b1 [|b2 ?]]], links as [|a [|b [|c ?]]],
    joints as [|t1 [|t2 [|t3 ?]]];
    (split; [|split; [|split; reflexivity]]);
    (split; [intros [? H]; try discriminate H; simpl; lia
            |intros H; simpl in H; try lia; by eexists]).
Qed.

(** X2: the squared distance from the hip to the foot is
    [l1² + l2² + l3² + 2 l2 l3 cos t3]: it depends on the knee angle only,
    and the foot stays within [sqrt (l1² + (|l2| + |l3|)²)] of the hip. *)
Theorem hip_to_foot_distance (b0 b1 b2 a b c t1 t2 t3 : R) :
  ∃ x y z,
    leg_forward_kinematics [b0; b1; b2] [a; b; c] [t1; t2; t3] = Some [x; y; z] ∧
    (x - b0) ^ 2 + (y - b1) ^ 2 + (z - b2) ^ 2
      = a ^ 2 + b ^ 2 + c ^ 2 + 2 * b * c * cos t3 ∧
    (x - b0) ^ 2 + (y - b1) ^ 2 + (z - b2) ^ 2 <= a ^ 2 + (Rabs b + Rabs c) ^ 2.
Proof.
  eexists _, _, _. split; [apply leg_forward_kinematics_3|].
  assert (∀ u, sin u ^ 2 + cos u ^ 2 = 1) as Hsc.
  { intros u. pose proof (sin2_cos2 u) as H. unfold Rsqr in H. lra. }
  assert (cos t3 = cos (t2 + t3) * cos t2 + sin (t2 + t3) * sin t2) as Ht3.
  { rewrite <- cos_minus. f_equal. ring. }
  assert ((b * sin t2 + c * sin (t2 + t3) + b0 - b0) ^ 2
          + (a * cos t1 - b * sin t1 * cos t2 - c * sin t1 * cos (t2 + t3) + b1 - b1) ^ 2
          + (a * sin t1 + b * cos t1 * cos t2 + c * cos t1 * cos (t2 + t3) + b2 - b2) ^ 2
          = a ^ 2 + b ^ 2 + c ^ 2 + 2 * b * c * cos t3) as Hd.
  { rewrite Ht3.
    transitivity
      ((a ^ 2 + (b * cos t2 + c * cos (t2 + t3)) ^ 2) * (sin t1 ^ 2 + cos t1 ^ 2)
       + (b * sin t2 + c * sin (t2 + t3)) ^ 2); [ring|].
    rewrite Hsc.
    transitivity
      (a ^ 2 + b ^ 2 * (sin t2 ^ 2 + cos t2 ^ 2)
       + c ^ 2 * (sin (t2 + t3) ^ 2 + cos (t2 + t3) ^ 2)
       + 2 * b * c * (cos (t2 + t3) * cos t2 + sin (t2 + t3) * sin t2)); [ring|].
    rewrite !Hsc. ring. }
  split; [exact Hd|]. rewrite Hd.
  pose proof (COS_bound t3) as [Hlo Hhi].
  assert (b * c * cos t3 <= Rabs b * Rabs c) as Hbc.
  { rewrite <- Rabs_mult. pose proof (Rabs_pos (b * c)) as Hpos.
    destruct (Rle_dec 0 (b * c)) as [Hs|Hs].
    - rewrite Rabs_right by lra. nra.
    - rewrite Rabs_left by lra. nra. }
  pose proof (pow2_abs b) as Hb. pose proof (pow2_abs c) as Hc. nra.
Qed.

(** X3: the determinant of the Jacobian is
    [- l2 l3 sin t3 (l2 cos t2 + l3 cos (t2 + t3))]: it is singular exactly
    when a link [l2] or [l3] is zero, the knee is straight or folded
    ([sin t3 = 0]), or the foot is on the axis of the first joint; [l1] and
    [t1] play no part. *)
Theorem leg_jacobian_determinant (a b c t1 t2 t3 : R) :
  ∃ jac,
    leg_jacobian [a; b; c] [t1; t2; t3] = Some jac ∧
    det33 jac = - b * c * sin t3 * (b * cos t2 + c * cos (t2 + t3)) ∧
    (det33 jac = 0 ↔
       b = 0 ∨ c = 0 ∨ sin t3 = 0 ∨ b * cos t2 + c * cos (t2 + t3) = 0).
Proof.
  eexists. split; [apply leg_jacobian_3|].
  assert (∀ u, sin u ^ 2 + cos u ^ 2 = 1) as Hsc.
  { intros u. pose proof (sin2_cos2 u) as H. unfold Rsqr in H. lra. }
  assert (sin t3 = sin (t2 + t3) * cos t2 - cos (t2 + t3) * sin t2) as Ht3.
  { rewrite <- sin_minus. f_equal. ring. }
  match goal with |- ?d = ?v ∧ _ => assert (d = v) as Hd end.
  { real_compute. rewrite Ht3.
    transitivity
      (- b * c * (sin (t2 + t3) * cos t2 - cos (t2 + t3) * sin t2)
       * (b * cos t2 + c * cos (t2 + t3)) * (sin t1 ^ 2 + cos t1 ^ 2)); [ring|].
    rewrite Hsc. ring. }
  split; [exact Hd|]. rewrite Hd. split.
  - intros H. apply Rmult_integral in H as [H|H]; [|tauto].
    apply Rmult_integral in H as [H|H]; [|tauto].
    apply Rmult_integral in H as [H|H]; [left; lra|tauto].
  - intros [-> | [-> | [-> | ->]]]; ring.
Qed.

Lemma jacobianTransposeControl_12
    (q0 q1 q2 q3 q4 q5 q6 q7 q8 q9 q10 q11 f0 f1 f2 f3 f4 f5 f6 f7 f8 f9 f10 f11 : R)
    (qrest frest : vec) :
  ∃ tau,
    jacobianTransposeControl K [q0; q1; q2; q3; q4; q5; q6; q7; q8; q9; q10; q11]
      [f0; f1; f2; f3; f4; f5; f6; f7; f8; f9; f10; f11] = Some tau ∧
    jacobianTransposeControl K
      (q0 :: q1 :: q2 :: q3 :: q4 :: q5 :: q6 :: q7 :: q8 :: q9 :: q10 :: q11 :: qrest)
      (f0 :: f1 :: f2 :: f3 :: f4 :: f5 :: f6 :: f7 :: f8 :: f9 :: f10 :: f11 :: frest)
      = Some tau.
Proof.
  unfold jacobianTransposeControl.
  rewrite link_map_RL, link_map_FL, link_map_RR, link_map_FR.
  eexists. split; real_compute; reflexivity.
Qed.

Lemma jacobianTransposeControl_short_q (q f : vec) :
  (length q < 12)%nat → jacobianTransposeControl K q f = None.
Proof.
  intros H. unfold jacobianTransposeControl.
  rewrite link_map_RL, link_map_FL, link_map_RR, link_map_FR.
  do 12 (destruct q as [|? q]; [reflexivity|]). simpl in H. lia.
Qed.

Lemma jacobianTransposeControl_short_f (q f : vec) :
  (length f < 12)%nat → jacobianTransposeControl K q f = None.
Proof.
  intros H. destruct (Nat.lt_ge_cases (length q) 12) as [Hq|Hq];
    [by apply jacobianTransposeControl_short_q|].
  unfold jacobianTransposeControl.
  rewrite link_map_RL, link_map_FL, link_map_RR, link_map_FR.
  do 12 (destruct q as [|? q]; [simpl in Hq; lia|]).
  do 12 (destruct f as [|? f]; [reflexivity|]). simpl in H. lia.
Qed.

(** X4: [jacobianTransposeControl] throws exactly when [q] or [f] has fewer
    than 12 elements; with 12 or more in both it returns the torques of the
    first 12 of each. *)
Theorem jacobianTransposeControl_defined_iff_at_least_12 (q f : vec) :
  (jacobianTransposeControl K q f = None ↔ (length q < 12)%nat ∨ (length f < 12)%nat) ∧
  jacobianTransposeControl K q f = jacobianTransposeControl K (take 12 q) (take 12 f).
Proof.
  destruct (Nat.lt_ge_cases (length q) 12) as [Hq|Hq].
  { rewrite !jacobianTransposeControl_short_q; [|by rewrite length_take; lia|done].
    split; [|done]. split; [by left|done]. }
  destruct (Nat.lt_ge_cases (length f) 12) as [Hf|Hf].
  { rewrite !jacobianTransposeControl_short_f; [|by rewrite length_take; lia|done].
    split; [|done]. split; [by right|done]. }
  do 12 (destruct q as [|? q]; [simpl in Hq; lia|]).
  do 12 (destruct f as [|? f]; [simpl in Hf; lia|]).
  match goal with
  | |- context [jacobianTransposeControl K
         (?q0 :: ?q1 :: ?q2 :: ?q3 :: ?q4 :: ?q5 :: ?q6 :: ?q7 :: ?q8 :: ?q9 :: ?q10 :: ?q11 :: q)
         (?f0 :: ?f1 :: ?f2 :: ?f3 :: ?f4 :: ?f5 :: ?f6 :: ?f7 :: ?f8 :: ?f9 :: ?f10 :: ?f11 :: f)] =>
      destruct (jacobianTransposeControl_12 q0 q1 q2 q3 q4 q5 q6 q7 q8 q9 q10 q11
                  f0 f1 f2 f3 f4 f5 f6 f7 f8 f9 f10 f11 q f) as (tau & H12 & Hall)
  end.
  rewrite Hall. cbn [firstn]. rewrite !take_0, H12. split; [|done].
  split; [done|]. simpl. lia.
Qed.

(** X5: for fixed joint angles the torques are linear in the foot forces. *)
Theorem jacobianTransposeControl_linear (q f g : vec) (a : R) :
  length q = 12%nat → length f = 12%nat → length g = 12%nat →
  ∃ tf tg th,
    jacobianTransposeControl K q f = Some tf ∧
    jacobianTransposeControl K q g = Some tg ∧
    jacobianTransposeControl K q (zip_with (λ u v, a * u + v) f g) = Some th ∧
    length th = 12%nat ∧
    ∀ i u v, tf !! i = Some u → tg !! i = Some v → th !! i = Some (a * u + v).
Proof.
  intros Hq Hf Hg.
  apply vec12_inv in Hq as (q0 & q1 & q2 & q3 & q4 & q5 & q6 & q7 & q8 & q9 & q10 & q11 & ->).
  apply vec12_inv in Hf as (f0 & f1 & f2 & f3 & f4 & f5 & f6 & f7 & f8 & f9 & f10 & f11 & ->).
  apply vec12_inv in Hg as (g0 & g1 & g2 & g3 & g4 & g5 & g6 & g7 & g8 & g9 & g10 & g11 & ->).
  unfold jacobianTransposeControl.
  rewrite link_map_RL, link_map_FL, link_map_RR, link_map_FR.
  eexists _, _, _. split; [real_compute; reflexivity|].
  split; [real_compute; reflexivity|]. split; [real_compute; reflexivity|].
  split; [reflexivity|].
  intros i u v Hu Hv.
  do 12 (destruct i as [|i]; [injection Hu as <-; injection Hv as <-; simpl; f_equal; ring|]).
  discriminate Hu.
Qed.

(** X6: the legs do not interact: the foot of leg [k] depends on the leg's
    three joint angles only, and the torques of leg [k] on the leg's joint
    angles and foot force only. *)
Theorem legs_are_independent (q q' f f' : vec) (k : nat) :
  (12 ≤ length q)%nat → (12 ≤ length q')%nat →
  (12 ≤ length f)%nat → (12 ≤ length f')%nat → (k < 4)%nat →
  rows q (3 * k) (3 * k + 2) = rows q' (3 * k) (3 * k + 2) →
  (∃ ft ft' p,
     forwardKinematics K q = Some ft ∧ forwardKinematics K q' = Some ft' ∧
     col ft k = Some p ∧ col ft' k = Some p) ∧
  (rows f (3 * k) (3 * k + 2) = rows f' (3 * k) (3 * k + 2) →
   ∃ tau tau' s,
     jacobianTransposeControl K q f = Some tau ∧
     jacobianTransposeControl K q' f' = Some tau' ∧
     rows tau (3 * k) (3 * k + 2) = Some s ∧ rows tau' (3 * k) (3 * k + 2) = Some s).
Proof.
  intros Hq Hq' Hf Hf' Hk Hrows.
  do 12 (destruct q as [|? q]; [simpl in Hq; lia|]).
  do 12 (destruct q' as [|? q']; [simpl in Hq'; lia|]).
  do 12 (destruct f as [|? f]; [simpl in Hf; lia|]).
  do 12 (destruct f' as [|? f']; [simpl in Hf'; lia|]).
  unfold forwardKinematics, jacobianTransposeControl.
  rewrite link_map_RL, link_map_FL, link_map_RR, link_map_FR.
  destruct k as [|[|[|[|k]]]]; [| | | |lia]; injection Hrows as -> -> ->.
  all: split;
    [ eexists _, _, _; split; [real_compute; reflexivity|];
      split; [real_compute; reflexivity|]; split; reflexivity
    | intros Hfr; injection Hfr as -> -> ->; eexists _, _, _;
      split; [real_compute; reflexivity|];
      split; [real_compute; reflexivity|]; split; reflexivity ].
Qed.

(** X7: the front and the rear leg of a side have the same links: at equal
    joint angles the front foot is the rear foot moved forward by [2 xbh]. *)
Theorem front_foot_is_rear_foot_shifted (t1 t2 t3 u1 u2 u3 : R) (rest : vec) :
  ∃ ft xl yl zl xr yr zr,
    forwardKinematics K (t1 :: t2 :: t3 :: t1 :: t2 :: t3 ::
                         u1 :: u2 :: u3 :: u1 :: u2 :: u3 :: rest) = Some ft ∧
    col ft 0 = Some [xl; yl; zl] ∧ col ft 1 = Some [xl + 2 * xbh; yl; zl] ∧
    col ft 2 = Some [xr; yr; zr] ∧ col ft 3 = Some [xr + 2 * xbh; yr; zr].
Proof.
  unfold forwardKinematics.
  rewrite link_map_RL, link_map_FL, link_map_RR, link_map_FR.
  eexists _, _, _, _, _, _, _. split; [real_compute; reflexivity|].
  split; [reflexivity|]. split.
  { real_compute. apply f_equal. apply (f_equal2 cons); [ring|reflexivity]. }
  split; [reflexivity|].
  real_compute. apply f_equal. apply (f_equal2 cons); [ring|reflexivity].
Qed.

(** X19: virtual work.  The torque that [jacobianTransposeControl] returns
    for joint [j] of leg [k] is the derivative, with respect to that joint
    angle, of the work [f . p] of the leg's foot force [f] along the foot
    position [p] of [leg_forward_kinematics]: the two functions agree. *)
Theorem torque_is_derivative_of_work (q f : vec) :
  length q = 12%nat → length f = 12%nat →
  ∃ tau, jacobianTransposeControl K q f = Some tau ∧
    ∀ k leg, leg_order !! k = Some leg →
      ∃ cfg qk f0 f1 f2,
        link_map_ K !! leg = Some cfg ∧ rows q (3 * k) (3 * k + 2) = Some qk ∧
        rows f (3 * k) (3 * k + 2) = Some [f0; f1; f2] ∧
        ∀ j, (j < 3)%nat →
          ∃ tj qj, at_ tau (3 * k + j) = Some tj ∧ at_ qk j = Some qj ∧
            derivable_pt_lim
              (λ t, f0 * foot_coordinate cfg.1 cfg.2 (<[j := t]> qk) 0
                    + f1 * foot_coordinate cfg.1 cfg.2 (<[j := t]> qk) 1
                    + f2 * foot_coordinate cfg.1 cfg.2 (<[j := t]> qk) 2) qj tj.
Proof.
  intros Hq Hf.
  apply vec12_inv in Hq as (q0 & q1 & q2 & q3 & q4 & q5 & q6 & q7 & q8 & q9 & q10 & q11 & ->).
  apply vec12_inv in Hf as (f0 & f1 & f2 & f3 & f4 & f5 & f6 & f7 & f8 & f9 & f10 & f11 & ->).
  unfold jacobianTransposeControl.
  rewrite link_map_RL, link_map_FL, link_map_RR, link_map_FR.
  eexists. split; [real_compute; reflexivity|].
  intros k leg Hk.
  destruct k as [|[|[|[|k]]]]; simpl in Hk; try done; injection Hk as <-.
  all: eexists _, _, _, _, _.
  all: split;
    [first [apply link_map_RL | apply link_map_FL | apply link_map_RR | apply link_map_FR]|].
  all: split; [reflexivity|]. all: split; [reflexivity|].
  all: intros j Hj; destruct j as [|[|[|j]]]; try lia.
  all: eexists _, _; split; [reflexivity|]; split; [reflexivity|].
  all: cbv [foot_coordinate]; simpl; differentiate; simpl; ring.
Qed.

(** ** Further properties of gait_visualizer_node.cpp *)

Ltac real_compute_in H :=
  lazy -[Rplus Rminus Rmult Rdiv Ropp Rinv IZR INR sin cos xbh ybh zbh l1 l2 l3] in H.

Lemma events_may_throw_bind {A B : Type} (o : option A) (k : A → Pub B) :
  (∀ a, events (k a) = []) → events (may_throw o ≫= k) = [].
Proof. intros Hk. rewrite events_bind. destruct o; simpl; auto. Qed.

(** X9: [emplace] never overwrites: when a leg name is configured twice, the
    maps built at startup keep the slice of its first occurrence and drop the
    later one; a name that is not among the first four has no entry. *)
Theorem leg_map_keeps_first_occurrence {V : Type} (names : list string) (src : list V)
    (m : gmap string (list V)) :
  leg_map names src = Some m →
  (∀ k leg, (k < 4)%nat → names !! k = Some leg →
     ∃ k' v, (k' ≤ k)%nat ∧ names !! k' = Some leg ∧ (leg ∉ take k' names) ∧
             slice3 src k' = Some v ∧ m !! leg = Some v) ∧
  (∀ leg, leg ∉ take 4 names → m !! leg = None).
Proof.
  intros Hm. split.
  - intros k leg Hk Hleg.
    destruct (first_occurrence _ _ _ Hleg) as (k' & Hle & Hk' & Hfresh).
    destruct (leg_map_lookup names src m k' leg Hm) as (v & Hv & Hlook); [lia|done|done|].
    by exists k', v.
  - intros leg Hleg. unfold leg_map, emplace_leg in Hm.
    destruct names as [|n0 [|n1 [|n2 [|n3 rest]]]]; try done;
      cbn [lookup list_lookup mbind option_bind] in Hm.
    + by destruct (slice3 src 0).
    + destruct (slice3 src 0); [|done]. cbn [mbind option_bind] in Hm.
      by destruct (slice3 src 1).
    + destruct (slice3 src 0); [|done]. cbn [mbind option_bind] in Hm.
      destruct (slice3 src 1); [|done]. cbn [mbind option_bind] in Hm.
      by destruct (slice3 src 2).
    + destruct (slice3 src 0); [|done]. cbn [mbind option_bind] in Hm.
      destruct (slice3 src 1); [|done]. cbn [mbind option_bind] in Hm.
      destruct (slice3 src 2); [|done]. cbn [mbind option_bind] in Hm.
      destruct (slice3 src 3); [|done]. cbn [mbind option_bind] in Hm.
      injection Hm as <-. simpl in Hleg.
      repeat (rewrite not_elem_of_cons in Hleg; destruct Hleg as [? Hleg]).
      rewrite !lookup_emplace, lookup_empty. repeat case_decide; congruence.
Qed.

Lemma leg_map_Some_lengths {V : Type} (names : list string) (src : list V)
    (m : gmap string (list V)) :
  leg_map names src = Some m → (4 ≤ length names)%nat ∧ (12 ≤ length src)%nat.
Proof.
  intros Hm. split.
  - unfold leg_map in Hm.
    destruct (emplace_leg names src 0 ∅) as [m0|]; [|done]. cbn [mbind option_bind] in Hm.
    destruct (emplace_leg names src 1 m0) as [m1|]; [|done]. cbn [mbind option_bind] in Hm.
    destruct (emplace_leg names src 2 m1) as [m2|]; [|done]. cbn [mbind option_bind] in Hm.
    unfold emplace_leg in Hm. destruct (names !! 3%nat) eqn:H3; [|done].
    apply lookup_lt_Some in H3. lia.
  - destruct (Nat.lt_ge_cases (length src) 12) as [Hlt|]; [|done].
    rewrite (leg_map_short names src Hlt) in Hm. done.
Qed.

Lemma startup_shape (cfg : Config) :
  is_Some (result (startup cfg)) →
  (4 ≤ length (leg_names cfg))%nat ∧ (12 ≤ length (joint_names cfg))%nat ∧
  (12 ≤ length (init_joint_positions cfg))%nat ∧
  (4 ≤ length (robot_orientation cfg))%nat ∧ length (robot_position cfg) = 3%nat.
Proof.
  intros [[nd mgr] H]. unfold startup in H.
  apply result_bind_Some in H as (_ & _ & H).
  apply result_bind_Some in H
    as (names & [Hlegs Hnames]%result_may_throw_Some%leg_map_Some_lengths & H).
  apply result_bind_Some in H
    as (inits & [_ Hinits]%result_may_throw_Some%leg_map_Some_lengths & H).
  apply result_bind_Some in H as (Rwb' & HRwb%result_may_throw_Some & H).
  apply result_bind_Some in H as (ft & _ & H).
  apply result_bind_Some in H as (ft1 & Hcol%result_may_throw_Some & _).
  do 3 (split; [done|]). split.
  - destruct (robot_orientation cfg !! 3%nat) eqn:H3; [|done].
    apply lookup_lt_Some in H3. lia.
  - destruct (robot_orientation cfg !! 3%nat); [|done].
    destruct (robot_orientation cfg !! 0%nat); [|done].
    destruct (robot_orientation cfg !! 1%nat); [|done].
    destruct (robot_orientation cfg !! 2%nat); [|done].
    injection HRwb as <-.
    destruct (col ft 0) as [c|]; [|done]. cbn [mbind option_bind] in Hcol.
    unfold body_to_world, mul_vec, add in Hcol. cbn [n_cols n_rows] in Hcol.
    destruct (length c =? 3)%nat; [|done]. cbn [mbind option_bind] in Hcol.
    rewrite length_map, length_seq in Hcol.
    destruct (3 =? length (robot_position cfg))%nat eqn:Hlen; [|done].
    apply Nat.eqb_eq in Hlen. done.
Qed.

(** X10: [main] reaches the loop exactly when there are at least four leg
    names, twelve joint names, twelve initial joint positions and four
    orientation entries, and the robot position has exactly three
    coordinates; otherwise an [at] or an Armadillo size check throws. *)
Theorem startup_returns_iff (cfg : Config) :
  is_Some (result (startup cfg)) ↔
    (4 ≤ length (leg_names cfg))%nat ∧ (12 ≤ length (joint_names cfg))%nat ∧
    (12 ≤ length (init_joint_positions cfg))%nat ∧
    (4 ≤ length (robot_orientation cfg))%nat ∧ length (robot_position cfg) = 3%nat.
Proof.
  split; [apply startup_shape|]. intros (? & ? & ? & ? & ?). by apply startup_returns.
Qed.

(** X11: the configuration check writes the two error lines when
    [num_joints], read as an [unsigned int], differs from the number of joint
    names or of initial positions, and nothing otherwise; nothing else of
    [main] before the loop writes or publishes.  For a [num_joints] in the
    range of [int] and fewer than [2^31] names and positions the check passes
    exactly when the three numbers are equal (a negative [num_joints] wraps
    to a large number and never matches). *)
Theorem startup_log (cfg : Config) :
  (- 2 ^ 31 ≤ num_joints_param cfg < 2 ^ 31)%Z →
  (Z.of_nat (length (joint_names cfg)) < 2 ^ 31)%Z →
  (Z.of_nat (length (init_joint_positions cfg)) < 2 ^ 31)%Z →
  (num_joints_param cfg = Z.of_nat (length (joint_names cfg)) ∧
   num_joints_param cfg = Z.of_nat (length (init_joint_positions cfg)) →
   events (startup cfg) = []) ∧
  (num_joints_param cfg ≠ Z.of_nat (length (joint_names cfg)) ∨
   num_joints_param cfg ≠ Z.of_nat (length (init_joint_positions cfg)) →
   events (startup cfg) =
     [LogError invalid_joint_configuration;
      LogError "Num(joints): %u, Num(joint names): %lu, Num(joint initial positions): %lu"]).
Proof.
  intros Hn Hjn Hjp.
  assert (∀ len : Z, (0 ≤ len < 2 ^ 31)%Z →
            (to_unsigned (num_joints_param cfg) =? len)%Z
            = (num_joints_param cfg =? len)%Z) as Hcast.
  { intros len Hlen. unfold to_unsigned.
    destruct (Z.eqb_spec (num_joints_param cfg) len) as [->|Hne].
    - apply Z.eqb_eq. apply Z.mod_small. lia.
    - apply Z.eqb_neq. destruct (Z.le_gt_cases 0 (num_joints_param cfg)).
      + rewrite Z.mod_small by lia. done.
      + replace (num_joints_param cfg) with (num_joints_param cfg + 2 ^ 32 + (-1) * 2 ^ 32)%Z
          by lia.
        rewrite Z.mod_add by lia. rewrite Z.mod_small by lia. lia. }
  unfold startup. rewrite events_bind, !Hcast by lia.
  match goal with
  | |- context [from_option _ [] (result ?first)] =>
      assert (result first = Some ()) as -> by (by destruct (negb _ || negb _)%bool)
  end.
  cbn [from_option].
  match goal with
  | |- context [events ?first ++ events ?rest] => assert (events rest = []) as ->
  end.
  { do 9 (apply events_may_throw_bind; intros ?). reflexivity. }
  rewrite app_nil_r. split.
  - intros [-> ->]. rewrite !Z.eqb_refl. reflexivity.
  - intros Hne.
    assert ((negb (num_joints_param cfg =? Z.of_nat (length (joint_names cfg)))%Z
             || negb (num_joints_param cfg
                      =? Z.of_nat (length (init_joint_positions cfg)))%Z)%bool = true) as ->.
    { apply orb_true_iff. destruct Hne as [H|H]; [left|right];
        apply negb_true_iff, Z.eqb_neq, H. }
    reflexivity.
Qed.

(** X13: every joint state that a cycle publishes for the [k]-th of the
    distinct leg names, in stance or in swing, carries joint names
    [3k .. 3k+2] of the configured ones. *)
Theorem published_joint_names (cfg : Config) (nd : Node) (mgr0 : FootTrajectoryManager)
    (k : nat) (leg : string) :
  result (startup cfg) = Some (nd, mgr0) →
  (k < 4)%nat → leg_names cfg !! k = Some leg → leg ∉ take k (leg_names cfg) →
  ∃ n0 n1 n2,
    joint_names cfg !! (3 * k)%nat = Some n0 ∧
    joint_names cfg !! (3 * k + 1)%nat = Some n1 ∧
    joint_names cfg !! (3 * k + 2)%nat = Some n2 ∧
    ∀ mgr (gait_map : GaitMap) msg,
      PublishJointState leg msg ∈ events (cycle nd mgr gait_map) →
      js_name msg = [n0; n1; n2].
Proof.
  intros (Hnames & _)%startup_inv Hk Hleg Hfresh.
  destruct (leg_map_lookup _ _ _ k leg Hnames Hk Hleg Hfresh) as (name & Hslice & Hname).
  unfold slice3 in Hslice.
  destruct (joint_names cfg !! (3 * k)%nat) as [n0|]; [|done].
  destruct (joint_names cfg !! (3 * k + 1)%nat) as [n1|]; [|done].
  destruct (joint_names cfg !! (3 * k + 2)%nat) as [n2|]; [|done].
  injection Hslice as <-. exists n0, n1, n2. do 3 (split; [done|]).
  intros mgr gait_map msg (mgr' & [[] phase] & _ & Hev)%cycle_joint_state_event;
    unfold publish_leg in Hev; cbn [fst] in Hev.
  - apply elem_of_events_bind in Hev as [H%elem_of_nil | (name' & Hn & Hev)]; [done|].
    apply elem_of_events_bind in Hev as [H%elem_of_nil | (? & _ & Hev)]; [done|].
    apply list_elem_of_singleton in Hev. injection Hev as ->.
    apply result_may_throw_Some in Hn. simpl. congruence.
  - apply elem_of_events_bind in Hev as [H%elem_of_nil | (? & _ & Hev)]; [done|].
    apply elem_of_events_bind in Hev as [H%elem_of_nil | (? & _ & Hev)]; [done|].
    apply elem_of_events_bind in Hev as [H%elem_of_nil | (? & _ & Hev)]; [done|].
    apply elem_of_events_bind in Hev as [H%elem_of_nil | (name' & Hn & Hev)]; [done|].
    apply list_elem_of_singleton in Hev. injection Hev as ->.
    apply result_may_throw_Some in Hn. simpl. congruence.
Qed.

(** X14: a cycle in which the planner returns no foothold publishes no
    markers, and every joint state it publishes is for a leg of the gait
    map. *)
Theorem cycle_without_footholds (nd : Node) (mgr : FootTrajectoryManager) (gait_map : GaitMap) :
  FootPlanner_positions (node_t_stance nd) (Rwb nd) (x nd) (xdot nd) (xdot_d nd) (w_d nd)
    gait_map = ∅ →
  ∀ e, e ∈ events (cycle nd mgr gait_map) →
       ∃ leg msg, e = PublishJointState leg msg ∧ is_Some (gait_map !! leg).
Proof.
  intros Hplan e He. unfold cycle in He. rewrite Hplan in He.
  rewrite decide_True in He by done.
  apply elem_of_events_bind in He as [H%elem_of_nil | (mgr' & _ & He)]; [done|].
  apply elem_of_events_bind in He as [He | (? & _ & H%elem_of_nil)]; [|done].
  apply elem_of_events_for_each in He as ([leg [[] phase]] & Hin%elem_of_in_key_order & He);
    unfold publish_leg in He; cbn [fst] in He.
  - apply elem_of_events_bind in He as [H%elem_of_nil | (? & _ & He)]; [done|].
    apply elem_of_events_bind in He as [H%elem_of_nil | (? & _ & He)]; [done|].
    apply list_elem_of_singleton in He. by eexists _, _.
  - apply elem_of_events_bind in He as [H%elem_of_nil | (? & _ & He)]; [done|].
    apply elem_of_events_bind in He as [H%elem_of_nil | (? & _ & He)]; [done|].
    apply elem_of_events_bind in He as [H%elem_of_nil | (? & _ & He)]; [done|].
    apply elem_of_events_bind in He as [H%elem_of_nil | (? & _ & He)]; [done|].
    apply list_elem_of_singleton in He. by eexists _, _.
Qed.

Lemma for_fold_None {A S : Type} (l : list A) (body : A → S → option S) (a : A) :
  a ∈ l → (∀ s, body a s = None) → ∀ s, for_fold l body s = None.
Proof.
  intros Hin Hbody. induction l as [|a' l IH]; intros s; [by apply elem_of_nil in Hin|].
  simpl. apply elem_of_cons in Hin as [<- | Hin].
  - by rewrite Hbody.
  - destruct (body a' s); simpl; [by apply IH|done].
Qed.

(** X15: when the planner returns a foothold for a leg that has no start
    foothold (any name other than RL, FL, RR, FR), [foothold_start_map.at]
    throws: the cycle ends before it has published anything, and so does the
    run. *)
Theorem cycle_throws_on_unknown_planned_leg (nd : Node) (mgr : FootTrajectoryManager)
    (gait_map : GaitMap) (rest : list GaitMap) (leg : string) (p_final : vec) :
  FootPlanner_positions (node_t_stance nd) (Rwb nd) (x nd) (xdot nd) (xdot_d nd) (w_d nd)
    gait_map !! leg = Some p_final →
  foothold_start_map nd !! leg = None →
  cycle nd mgr gait_map = MkPub [] None ∧ run nd mgr (gait_map :: rest) = MkPub [] None.
Proof.
  intros Hplan Hstart.
  assert (cycle nd mgr gait_map = MkPub [] None) as Hcycle.
  { unfold cycle. rewrite decide_False; [|by intros Heq; rewrite Heq, lookup_empty in Hplan].
    rewrite (for_fold_None _ _ (leg, p_final)); [reflexivity| |].
    - by apply elem_of_in_key_order.
    - intros s. by rewrite Hstart. }
  split; [done|]. simpl. rewrite Hcycle. reflexivity.
Qed.

(** The body pose that the node holds. *)
Lemma startup_pose (cfg : Config) (nd : Node) (mgr0 : FootTrajectoryManager)
    (qx qy qz qw : R) (rest : list R) :
  result (startup cfg) = Some (nd, mgr0) →
  robot_orientation cfg = qx :: qy :: qz :: qw :: rest →
  x nd = robot_position cfg ∧
  Rwb nd = Mat 3 3
    [ Quaternion_matrix qw qx qy qz 0 0; Quaternion_matrix qw qx qy qz 1 0;
      Quaternion_matrix qw qx qy qz 2 0; Quaternion_matrix qw qx qy qz 0 1;
      Quaternion_matrix qw qx qy qz 1 1; Quaternion_matrix qw qx qy qz 2 1;
      Quaternion_matrix qw qx qy qz 0 2; Quaternion_matrix qw qx qy qz 1 2;
      Quaternion_matrix qw qx qy qz 2 2 ].
Proof.
  intros H Hq. unfold startup in H. rewrite Hq in H.
  apply result_bind_Some in H as (_ & _ & H).
  apply result_bind_Some in H as (names & _ & H).
  apply result_bind_Some in H as (inits & _ & H).
  apply result_bind_Some in H as (Rwb' & HRwb%result_may_throw_Some & H).
  do 6 (apply result_bind_Some in H as (? & _ & H)).
  injection H as <- _. injection HRwb as <-. done.
Qed.

(** X12: the start footholds are keyed by the four fixed names RL, FL, RR,
    FR, whatever leg names are configured, and the one of leg [k] is the foot
    of column [k] of [forwardKinematics] at the initial joint positions,
    taken to the world frame by [Rwb * p + x]. *)
Theorem start_footholds (cfg : Config) (nd : Node) (mgr0 : FootTrajectoryManager) :
  result (startup cfg) = Some (nd, mgr0) →
  ∃ ft_p,
    forwardKinematics K (init_joint_positions cfg) = Some ft_p ∧
    (∀ k leg, leg_order !! k = Some leg →
       ∃ c w, col ft_p k = Some c ∧ body_to_world (Rwb nd) (x nd) c = Some w ∧
              foothold_start_map nd !! leg = Some w) ∧
    (∀ leg, leg ∉ leg_order → foothold_start_map nd !! leg = None).
Proof.
  intros H.
  destruct (startup_shape cfg) as (_ & _ & Hinits & Hq & Hx); [by eexists|].
  unfold startup in H.
  apply result_bind_Some in H as (_ & _ & H).
  apply result_bind_Some in H as (names & _ & H).
  apply result_bind_Some in H as (inits & _ & H).
  apply result_bind_Some in H as (Rwb' & HRwb%result_may_throw_Some & H).
  apply result_bind_Some in H as (ft & Hft%result_may_throw_Some & H).
  apply result_bind_Some in H as (ft1 & Hc0%result_may_throw_Some & H).
  apply result_bind_Some in H as (ft2 & Hc1%result_may_throw_Some & H).
  apply result_bind_Some in H as (ft3 & Hc2%result_may_throw_Some & H).
  apply result_bind_Some in H as (ft4 & Hc3%result_may_throw_Some & H).
  apply result_bind_Some in H as (start & Hstart%result_may_throw_Some & H).
  injection H as <- _. cbn [foothold_start_map Rwb x].
  destruct (robot_orientation cfg) as [|qx [|qy [|qz [|qw ?]]]]; [simpl in Hq; lia..|].
  destruct (vec3_inv _ Hx) as (x0 & x1 & x2 & Hxeq). rewrite Hxeq in *.
  destruct (init_joint_positions cfg) as [|q0 [|q1 [|q2 [|q3 [|q4 [|q5 [|q6 [|q7 [|q8 [|q9
    [|q10 [|q11 rest]]]]]]]]]]]]; [simpl in Hinits; lia..|].
  destruct (forwardKinematics_12 q0 q1 q2 q3 q4 q5 q6 q7 q8 q9 q10 q11 rest)
    as (p0 & p1 & p2 & p3 & H0 & H1 & H2 & H3 & Hfk).
  unfold trans_rl, trans_fl, trans_rr, trans_fr, left_links, right_links in H0, H1, H2, H3.
  rewrite leg_forward_kinematics_3 in H0, H1, H2, H3.
  injection H0 as <-. injection H1 as <-. injection H2 as <-. injection H3 as <-.
  rewrite Hfk in Hft. injection Hft as <-.
  real_compute_in HRwb. injection HRwb as <-.
  real_compute_in Hc0. injection Hc0 as <-.
  real_compute_in Hc1. injection Hc1 as <-.
  real_compute_in Hc2. injection Hc2 as <-.
  real_compute_in Hc3. injection Hc3 as <-.
  match type of Hstart with context [col ?m 0] =>
    destruct (col m 0) as [c0|] eqn:E0, (col m 1) as [c1|] eqn:E1,
      (col m 2) as [c2|] eqn:E2, (col m 3) as [c3|] eqn:E3;
      try discriminate Hstart
  end.
  cbn [mbind option_bind] in Hstart. injection Hstart as <-.
  real_compute_in E0. real_compute_in E1. real_compute_in E2. real_compute_in E3.
  injection E0 as <-. injection E1 as <-. injection E2 as <-. injection E3 as <-.
  eexists. split; [exact Hfk|]. split.
  - intros k leg Hk.
    destruct k as [|[|[|[|k]]]]; simpl in Hk; try done; injection Hk as <-.
    all: eexists _, _; split; [reflexivity|]; split; [real_compute; reflexivity|].
    all: rewrite !lookup_emplace, lookup_empty.
    all: repeat case_decide; done.
  - intros leg Hleg. unfold leg_order in Hleg.
    repeat (rewrite not_elem_of_cons in Hleg; destruct Hleg as [? Hleg]).
    rewrite !lookup_emplace, lookup_empty.
    repeat case_decide; congruence.
Qed.

(** X16: when the body is at the world origin, or is not rotated, line 292
    gives the world-to-body transform; these are the default poses. *)
Theorem swing_foot_position_right_at_origin_or_unrotated
    (r0 r1 r2 r3 r4 r5 r6 r7 r8 x0 x1 x2 p0 p1 p2 : R) :
  let Rwb := Mat 3 3 [r0; r1; r2; r3; r4; r5; r6; r7; r8] in
  let identity := Mat 3 3 [1; 0; 0; 0; 1; 0; 0; 0; 1] in
  (det33 Rwb ≠ 0 →
   ∃ a b c a' b' c',
     swing_foot_position Rwb [0; 0; 0] [p0; p1; p2] = Some [a; b; c] ∧
     world_to_body Rwb [0; 0; 0] [p0; p1; p2] = Some [a'; b'; c'] ∧
     a = a' ∧ b = b' ∧ c = c') ∧
  (∃ a b c a' b' c',
     swing_foot_position identity [x0; x1; x2] [p0; p1; p2] = Some [a; b; c] ∧
     world_to_body identity [x0; x1; x2] [p0; p1; p2] = Some [a'; b'; c'] ∧
     a = a' ∧ a = p0 - x0 ∧ b = b' ∧ b = p1 - x1 ∧ c = c' ∧ c = p2 - x2).
Proof.
  intros Rwb identity. split.
  - intros Hdet. unfold swing_foot_position, world_to_body, inv.
    destruct (Req_dec_T (det33 Rwb) 0) as [|_]; [done|].
    eexists _, _, _, _, _, _. split; [reflexivity|]. split; [reflexivity|].
    revert Hdet. unfold Rwb. real_compute. intros Hdet. repeat split; field; exact Hdet.
  - assert (det33 identity = 1) as Hdet by (unfold identity; real_compute; lra).
    unfold swing_foot_position, world_to_body, inv.
    destruct (Req_dec_T (det33 identity) 0) as [Hd|_]; [rewrite Hdet in Hd; lra|].
    eexists _, _, _, _, _, _. split; [reflexivity|]. split; [reflexivity|].
    revert Hdet. unfold identity. real_compute. intros ->. repeat split; lra.
Qed.

(** X17: a singular [Rwb] makes [inv] throw in the swing branch: nothing is
    published for the leg, and the cycle ends there. *)
Theorem swing_leg_throws_on_singular_rotation (nd : Node) (mgr : FootTrajectoryManager)
    (gait_map : GaitMap) (leg : string) (phase : R) (st : LegState * R) :
  gait_map !! leg = Some st → det33 (Rwb nd) = 0 →
  publish_leg nd mgr gait_map (leg, (swing, phase)) = MkPub [] None.
Proof.
  intros Hst Hdet. unfold publish_leg. cbn [fst]. unfold swing_foot_position, inv.
  destruct ((n_rows (Rwb nd) =? 3)%nat && (n_cols (Rwb nd) =? 3)%nat)%bool;
    [destruct (Req_dec_T (det33 (Rwb nd)) 0); [|done]|];
    rewrite Hst; reflexivity.
Qed.




End Quadruped.

(** ** The functions at concrete inputs *)

(** C6, at [num_joints] = 11 with twelve joint names and twelve initial
    positions: the mismatch is written to the log and [main] goes on into the
    loop; the first cycle runs to its end and publishes a joint state for each
    of the four legs. *)
Theorem eleven_joints_configuration_runs_the_loop :
  let out := main zero_fill echo_inverse quaternion_rotation unit (λ _ _ _, ())
               origin_reference (λ m _, m) (λ m _ _, m) no_footholds 0
               cfg_eleven_joints [all_stance] in
  to_unsigned (num_joints_param cfg_eleven_joints)
    ≠ Z.of_nat (length (joint_names cfg_eleven_joints)) ∧
  result out = Some () ∧
  events out =
    [ LogError invalid_joint_configuration;
      LogError "Num(joints): %u, Num(joint names): %lu, Num(joint initial positions): %lu";
      PublishJointState "FL" {| js_stamp := 0; js_name := ["FL_hip"; "FL_thigh"; "FL_calf"];
                                js_position := [0; 0.5; -1] |};
      PublishJointState "FR" {| js_stamp := 0; js_name := ["FR_hip"; "FR_thigh"; "FR_calf"];
                                js_position := [0; 0.5; -1] |};
      PublishJointState "RL" {| js_stamp := 0; js_name := ["RL_hip"; "RL_thigh"; "RL_calf"];
                                js_position := [0; 0.5; -1] |};
      PublishJointState "RR" {| js_stamp := 0; js_name := ["RR_hip"; "RR_thigh"; "RR_calf"];
                                js_position := [0; 0.5; -1] |} ].
Proof.
  intros out. split; [done|]. split; vm_compute; reflexivity.
Qed.

Lemma det33_half_turn : det33 half_turn = 1.
Proof. unfold half_turn. real_compute. lra. Qed.

(** C2, at a half turn about the vertical axis, the robot at [(1, 0, 0)] and
    the reference position [(1, 0, 0)], the foot under the origin of the
    body: line 292 computes [(-2, 0, 0)], the world-to-body transform gives
    [(0, 0, 0)]. *)
Theorem swing_foot_position_is_not_world_to_body :
  ∃ a b c a' b' c',
    swing_foot_position half_turn body_at foot_at = Some [a; b; c] ∧
    a = -2 ∧ b = 0 ∧ c = 0 ∧
    world_to_body half_turn body_at foot_at = Some [a'; b'; c'] ∧
    a' = 0 ∧ b' = 0 ∧ c' = 0 ∧
    swing_foot_position half_turn body_at foot_at
      ≠ world_to_body half_turn body_at foot_at.
Proof.
  unfold swing_foot_position, world_to_body, inv.
  destruct (Req_dec_T (det33 half_turn) 0) as [Hd|_].
  { rewrite det33_half_turn in Hd. lra. }
  pose proof det33_half_turn as Hdet.
  eexists _, _, _, _, _, _.
  split; [reflexivity|]. unfold half_turn in *. revert Hdet. real_compute. intros ->.
  do 3 (split; [lra|]). split; [reflexivity|]. do 3 (split; [lra|]).
  intros [= H _ _]. lra.
Qed.

(** C5, as stated, fails at a vector of 13 elements. *)
Lemma forwardKinematics_accepts_13_elements :
  length (replicate 13 0) ≠ 12%nat ∧
  is_Some (forwardKinematics zero_fill QuadrupedKinematics_ctor (replicate 13 0)).
Proof. split; [done|]. by eexists. Qed.

Lemma forwardKinematics_defined_iff_at_least_12_witness :
  (12 ≤ length (replicate 13 0))%nat ∧
  ∃ ft_p, forwardKinematics zero_fill QuadrupedKinematics_ctor (replicate 13 0) = Some ft_p ∧
    forwardKinematics zero_fill QuadrupedKinematics_ctor (take 12 (replicate 13 0))
      = Some ft_p ∧
    ∃ p_fl, leg_forward_kinematics zero_fill trans_fl left_links [0; 0; 0] = Some p_fl ∧
      col ft_p 1 = Some p_fl.
Proof.
  split; [simpl; lia|].
  destruct (forwardKinematics_defined_iff_at_least_12 zero_fill (replicate 13 0))
    as [_ Hlong].
  destruct Hlong as (ft_p & H1 & _ & _ & _ & H2 & Hcols); [simpl; lia|].
  exists ft_p. split; [exact H1|]. split; [exact H2|].
  destruct Hcols as (q_rl & q_fl & q_rr & q_fr & p_rl & p_fl & p_rr & p_fr
                     & _ & _ & _ & -> & _ & _ & _ & _ & _ & Hfl & _ & _ & _ & _ & _ & _
                     & _ & Hc & _).
  exists p_fl. split; [exact Hfl|exact Hc].
Defined.

Lemma leg_jacobian_is_derivative_of_forward_kinematics_witness :
  length trans_rl = 3%nat ∧ length left_links = 3%nat ∧ length [0; 0; 0] = 3%nat ∧
  ∃ jac, leg_jacobian zero_fill left_links [0; 0; 0] = Some jac ∧
    ∀ i j, (i < 3)%nat → (j < 3)%nat →
      ∃ d tj, mat_at jac i j = Some d ∧ [0; 0; 0] !! j = Some tj ∧
        derivable_pt_lim
          (λ t, foot_coordinate zero_fill trans_rl left_links (<[j := t]> [0; 0; 0]) i) tj d.
Proof.
  do 3 (split; [reflexivity|]).
  destruct (leg_jacobian_is_derivative_of_forward_kinematics zero_fill trans_rl left_links
              [0; 0; 0] eq_refl eq_refl eq_refl) as (jac & H & _ & _ & _ & Hd).
  exists jac. split; assumption.
Defined.

Lemma foot_x_independent_of_first_joint_witness :
  length trans_fr = 3%nat ∧ length right_links = 3%nat ∧ length [0; 1; 2] = 3%nat ∧
  ∃ p p' x,
    leg_forward_kinematics zero_fill trans_fr right_links [0; 1; 2] = Some p ∧
    leg_forward_kinematics zero_fill trans_fr right_links [5; 1; 2] = Some p' ∧
    at_ p 0 = Some x ∧ at_ p' 0 = Some x.
Proof.
  do 3 (split; [reflexivity|]).
  destruct (foot_x_independent_of_first_joint zero_fill trans_fr right_links [0; 1; 2] 5
              eq_refl eq_refl eq_refl) as (p & p' & _ & x & H1 & H2 & H3 & H4 & _).
  exists p, p', x. repeat split; assumption.
Defined.

Lemma jacobianTransposeControl_is_transposed_jacobian_times_force_witness :
  length (replicate 12 0) = 12%nat ∧ length (replicate 12 1) = 12%nat ∧
  ∃ tau, jacobianTransposeControl zero_fill QuadrupedKinematics_ctor
           (replicate 12 0) (replicate 12 1) = Some tau ∧ length tau = 12%nat.
Proof.
  do 2 (split; [reflexivity|]).
  destruct (jacobianTransposeControl_is_transposed_jacobian_times_force zero_fill
              (replicate 12 0) (replicate 12 1) eq_refl eq_refl) as (tau & H & Hlen & _).
  exists tau. split; assumption.
Defined.

Lemma footTrajViz_samples_swing_trajectory_witness :
  (0 <=? 0.5)%float = true ∧ (0.5 <? 1)%float = true ∧
  (∀ phase, length (position (origin_reference () "FL" phase)) = 3%nat) ∧
  ∃ markers, footTrajViz unit origin_reference 0 () "FL" 0.5%float 1%float = Some markers ∧
    length markers = 30%nat ∧
    ∃ m, markers !! 29%nat = Some m ∧ pose_position m = (0, 0, 0) ∧ id m = 29%Z.
Proof.
  split; [reflexivity|]. split; [reflexivity|]. split; [reflexivity|].
  destruct (footTrajViz_samples_swing_trajectory unit origin_reference 0 () "FL"
              0.5%float 1%float eq_refl eq_refl (λ _, eq_refl))
    as (markers & H & Hlen & _ & _ & Hat).
  exists markers. split; [exact H|]. split; [exact Hlen|].
  destruct (Hat 29%nat) as (m & px & py & pz & Hm & Hp & Hpose & Hid & _); [lia|].
  injection Hp as <- <- <-.
  exists m. split; [exact Hm|]. split; [exact Hpose|exact Hid].
Defined.

Lemma stance_phase_near_one_in_range :
  (0 <=? stance_phase_near_one)%float = true ∧ (stance_phase_near_one <? 1)%float = true ∧
  0 <= double_value stance_phase_near_one < 1.
Proof.
  split; [reflexivity|]. split; [reflexivity|].
  unfold double_value.
  replace (Prim2SF stance_phase_near_one)
    with (S754_finite false 9007199254740736 (-53)) by (vm_compute; reflexivity).
  unfold powerRZ.
  replace (2 ^ Pos.to_nat 53) with 9007199254740992; [lra|].
  replace (Pos.to_nat 53) with 53%nat by reflexivity. simpl. lra.
Qed.

Lemma footTrajViz_phase_29_near_one :
  double_value (footTrajViz_phase stance_phase_near_one 29) = 4503599627370498 / 4503599627370496.
Proof.
  unfold double_value.
  replace (Prim2SF (footTrajViz_phase stance_phase_near_one 29))
    with (S754_finite false 4503599627370498 (-52)) by (vm_compute; reflexivity).
  unfold powerRZ.
  replace (2 ^ Pos.to_nat 52) with 4503599627370496; [reflexivity|].
  replace (Pos.to_nat 52) with 52%nat by reflexivity. simpl. lra.
Qed.

(** C10 (counterexample): the stance phase [1 - 2^-45] lies in [[0, 1)], and
    with a reference trajectory that reports the phase it is asked for as the
    x coordinate, marker 29 of [footTrajViz] carries a phase above 1 (it is
    [1 + 2^-51]): the accumulated [phase += dt] of doubles is not
    [stance_phase + 29 * (1 - stance_phase) / 30], which is below 1. *)
Lemma footTrajViz_last_phase_exceeds_one :
  (0 <=? stance_phase_near_one)%float = true ∧
  (stance_phase_near_one <? 1)%float = true ∧
  0 <= double_value stance_phase_near_one < 1 ∧
  (∀ leg phase, position (phase_reference () leg phase) = [phase; 0; 0]) ∧
  ∃ markers m phase,
    footTrajViz unit phase_reference 0 () "FL" stance_phase_near_one 1%float = Some markers ∧
    markers !! 29%nat = Some m ∧
    pose_position m = (phase, 0, 0) ∧
    1 < phase ∧
    double_value stance_phase_near_one
      + 29 * (1 - double_value stance_phase_near_one) / 30 < 1 ∧
    phase ≠ double_value stance_phase_near_one
            + 29 * (1 - double_value stance_phase_near_one) / 30.
Proof.
  destruct stance_phase_near_one_in_range as (H0 & H1 & Hr).
  split; [exact H0|]. split; [exact H1|]. split; [exact Hr|]. split; [reflexivity|].
  destruct (footTrajViz_markers unit phase_reference 0 () "FL" stance_phase_near_one
              1%float (λ _, eq_refl)) as (markers & Hrun & _ & Hat).
  destruct (Hat 29%nat) as (px & py & pz & Hp & Hm); [lia|].
  change ([double_value (footTrajViz_phase stance_phase_near_one 29); 0; 0] = [px; py; pz])
    in Hp.
  rewrite footTrajViz_phase_29_near_one in Hp. injection Hp as <- <- <-.
  eexists markers, _, _. split; [exact Hrun|]. split; [exact Hm|].
  split; [reflexivity|]. lra.
Qed.


Lemma stance_leg_command_is_initial_configuration_witness :
  (12 ≤ length (joint_names cfg_twelve_joints))%nat ∧
  (12 ≤ length (init_joint_positions cfg_twelve_joints))%nat ∧
  (4 ≤ length (robot_orientation cfg_twelve_joints))%nat ∧
  length (robot_position cfg_twelve_joints) = 3%nat ∧
  (4 ≤ length (leg_names cfg_twelve_joints))%nat ∧
  (1 < 4)%nat ∧ leg_names cfg_twelve_joints !! 1%nat = Some "FL" ∧
  ("FL" ∉ take 1 (leg_names cfg_twelve_joints)) ∧
  ∃ nd mgr0 n0 n1 n2,
    result (startup zero_fill quaternion_rotation unit (λ _ _ _, ()) cfg_twelve_joints)
      = Some (nd, mgr0) ∧
    joint_names cfg_twelve_joints !! 3%nat = Some n0 ∧
    joint_names cfg_twelve_joints !! 4%nat = Some n1 ∧
    joint_names cfg_twelve_joints !! 5%nat = Some n2 ∧
    is_Some (result (cycle echo_inverse unit origin_reference (λ m _, m) (λ m _ _, m)
                       no_footholds 0 nd () all_stance)) ∧
    PublishJointState "FL" {| js_stamp := 0; js_name := [n0; n1; n2];
                              js_position := [0; 0.5; -1] |}
      ∈ events (cycle echo_inverse unit origin_reference (λ m _, m) (λ m _ _, m)
                  no_footholds 0 nd () all_stance) ∧
    ∀ msg, PublishJointState "FL" msg
             ∈ events (cycle echo_inverse unit origin_reference (λ m _, m) (λ m _ _, m)
                         no_footholds 0 nd () all_stance) →
           js_position msg = [0; 0.5; -1].
Proof.
  assert ("FL" ∉ take 1 (leg_names cfg_twelve_joints)) as Hfresh.
  { simpl. by intros [=]%list_elem_of_singleton. }
  do 3 (split; [simpl; lia|]). split; [reflexivity|]. split; [simpl; lia|].
  split; [lia|]. split; [reflexivity|]. split; [exact Hfresh|].
  destruct (stance_leg_command_is_initial_configuration zero_fill echo_inverse
              quaternion_rotation unit (λ _ _ _, ()) origin_reference (λ m _, m)
              (λ m _ _, m) no_footholds 0 cfg_twelve_joints 1 "FL")
    as (nd & mgr0 & q0 & q1 & q2 & n0 & n1 & n2 & Hstart & H0 & H1 & H2 & Hn0 & Hn1 & Hn2
        & _ & Hcycle & _);
    [simpl; lia|simpl; lia|simpl; lia|reflexivity|simpl; lia|lia|reflexivity|exact Hfresh|].
  exists nd, mgr0, n0, n1, n2. split; [exact Hstart|].
  do 3 (split; [assumption|]).
  injection H0 as <-. injection H1 as <-. injection H2 as <-.
  destruct (Hcycle () all_stance 0 eq_refl) as (Hall & _ & Hruns).
  destruct Hruns as [Hdone Hpublished]; [reflexivity| |].
  - intros leg' st Hst. unfold all_stance in Hst.
    apply lookup_insert_Some in Hst as [[<- <-]|[_ Hst]];
      [split; [reflexivity|]; exists 0%nat; split; [lia|reflexivity]|].
    apply lookup_insert_Some in Hst as [[<- <-]|[_ Hst]];
      [split; [reflexivity|]; exists 1%nat; split; [lia|reflexivity]|].
    apply lookup_insert_Some in Hst as [[<- <-]|[_ Hst]];
      [split; [reflexivity|]; exists 2%nat; split; [lia|reflexivity]|].
    apply lookup_insert_Some in Hst as [[<- <-]|[_ Hst]];
      [split; [reflexivity|]; exists 3%nat; split; [lia|reflexivity]|].
    rewrite lookup_empty in Hst. discriminate Hst.
  - split; [exact Hdone|]. split; [exact Hpublished|exact Hall].
Defined.

(** ** Further properties at two memory contents and at concrete inputs *)

(** X8: the four kinematics functions assign every element of the vector or
    matrix they return: what the memory held before never reaches a result,
    and whether they throw does not depend on it either. *)
Theorem results_do_not_depend_on_uninitialised_memory
    (u1 u2 : nat → R) (trans_bh links joints q f : vec) :
  leg_jacobian u1 links joints = leg_jacobian u2 links joints ∧
  leg_forward_kinematics u1 trans_bh links joints
    = leg_forward_kinematics u2 trans_bh links joints ∧
  forwardKinematics u1 QuadrupedKinematics_ctor q
    = forwardKinematics u2 QuadrupedKinematics_ctor q ∧
  jacobianTransposeControl u1 QuadrupedKinematics_ctor q f
    = jacobianTransposeControl u2 QuadrupedKinematics_ctor q f.
Proof.
  split; [|split; [|split]].
  - destruct links as [|a [|b [|c ?]]], joints as [|t1 [|t2 [|t3 ?]]]; reflexivity.
  - destruct trans_bh as [|b0 [|b1 [|b2 ?]]], links as [|a [|b [|c ?]]],
      joints as [|t1 [|t2 [|t3 ?]]]; reflexivity.
  - do 12 (destruct q as [|? q]; [vm_compute; reflexivity|]). vm_compute. reflexivity.
  - do 12 (destruct q as [|? q]; [vm_compute; reflexivity|]).
    do 12 (destruct f as [|? f]; [vm_compute; reflexivity|]). vm_compute. reflexivity.
Qed.

Lemma swing_leg_throws_on_singular_rotation_witness :
  ∃ nd mgr0,
    result (startup zero_fill quaternion_rotation unit (λ _ _ _, ()) cfg_singular_orientation)
      = Some (nd, mgr0) ∧
    front_left_swing !! "FL" = Some (swing, 0.5) ∧
    det33 (Rwb nd) = 0 ∧
    publish_leg echo_inverse unit origin_reference 0 nd () front_left_swing
      ("FL", (swing, 0.5)) = MkPub [] None.
Proof.
  exists (from_option fst no_node
            (result (startup zero_fill quaternion_rotation unit (λ _ _ _, ())
                       cfg_singular_orientation))), ().
  split; [vm_compute; reflexivity|].
  assert (front_left_swing !! "FL" = Some (swing, 0.5)) as Hst by (vm_compute; reflexivity).
  split; [exact Hst|].
  match goal with |- det33 (Rwb ?nd) = 0 ∧ _ =>
    assert (result (startup zero_fill quaternion_rotation unit (λ _ _ _, ())
                      cfg_singular_orientation) = Some (nd, ())) as Hs
      by (vm_compute; reflexivity);
    assert (det33 (Rwb nd) = 0) as Hdet
  end.
  { destruct (startup_pose _ _ _ _ _ _ _ 0.5 0.5 0.0 0.0 [] Hs eq_refl) as [_ ->].
    real_compute. lra. }
  split; [exact Hdet|].
  exact (swing_leg_throws_on_singular_rotation echo_inverse unit origin_reference 0 _ ()
           front_left_swing "FL" 0.5 (swing, 0.5) Hst Hdet).
Defined.

Lemma jacobianTransposeControl_linear_witness :
  length (replicate 12 0.5) = 12%nat ∧ length (replicate 12 1) = 12%nat ∧
  length (replicate 12 2) = 12%nat ∧
  ∃ tf tg th,
    jacobianTransposeControl zero_fill QuadrupedKinematics_ctor (replicate 12 0.5)
      (replicate 12 1) = Some tf ∧
    jacobianTransposeControl zero_fill QuadrupedKinematics_ctor (replicate 12 0.5)
      (replicate 12 2) = Some tg ∧
    jacobianTransposeControl zero_fill QuadrupedKinematics_ctor (replicate 12 0.5)
      (zip_with (λ u v, 3 * u + v) (replicate 12 1) (replicate 12 2)) = Some th ∧
    ∀ i u v, tf !! i = Some u → tg !! i = Some v → th !! i = Some (3 * u + v).
Proof.
  do 3 (split; [reflexivity|]).
  destruct (jacobianTransposeControl_linear zero_fill (replicate 12 0.5) (replicate 12 1)
              (replicate 12 2) 3 eq_refl eq_refl eq_refl)
    as (tf & tg & th & Hf & Hg & Hh & _ & Hlin).
  exists tf, tg, th. repeat split; assumption.
Defined.

Lemma legs_are_independent_witness :
  (12 ≤ length (replicate 12 0))%nat ∧ (12 ≤ length (replicate 3 0 ++ replicate 9 1))%nat ∧
  (12 ≤ length (replicate 12 1))%nat ∧ (12 ≤ length (replicate 3 1 ++ replicate 9 2))%nat ∧
  (0 < 4)%nat ∧
  rows (replicate 12 0) (3 * 0) (3 * 0 + 2)
    = rows (replicate 3 0 ++ replicate 9 1) (3 * 0) (3 * 0 + 2) ∧
  ∃ ft ft' p,
    forwardKinematics zero_fill QuadrupedKinematics_ctor (replicate 12 0) = Some ft ∧
    forwardKinematics zero_fill QuadrupedKinematics_ctor (replicate 3 0 ++ replicate 9 1)
      = Some ft' ∧
    col ft 0 = Some p ∧ col ft' 0 = Some p.
Proof.
  do 4 (split; [simpl; lia|]). split; [lia|]. split; [reflexivity|].
  destruct (legs_are_independent zero_fill (replicate 12 0) (replicate 3 0 ++ replicate 9 1)
              (replicate 12 1) (replicate 3 1 ++ replicate 9 2) 0)
    as [(ft & ft' & p & H1 & H2 & H3 & H4) _];
    [simpl; lia|simpl; lia|simpl; lia|simpl; lia|lia|reflexivity|].
  exists ft, ft', p. repeat split; assumption.
Defined.

Lemma leg_map_keeps_first_occurrence_witness :
  ∃ m, leg_map leg_names_RL_twice (init_joint_positions cfg_twelve_joints) = Some m ∧
    ∃ k' v, (k' ≤ 1)%nat ∧ leg_names_RL_twice !! k' = Some "RL" ∧
      ("RL" ∉ take k' leg_names_RL_twice) ∧
      slice3 (init_joint_positions cfg_twelve_joints) k' = Some v ∧ m !! "RL" = Some v.
Proof.
  destruct (leg_map_is_Some leg_names_RL_twice (init_joint_positions cfg_twelve_joints))
    as [m Hm]; [simpl; lia|simpl; lia|].
  exists m. split; [exact Hm|].
  destruct (leg_map_keeps_first_occurrence _ _ _ Hm) as [Hfirst _].
  apply (Hfirst 1%nat "RL"); [lia|reflexivity].
Defined.

Lemma startup_log_witness :
  (- 2 ^ 31 ≤ num_joints_param cfg_eleven_joints < 2 ^ 31)%Z ∧
  (Z.of_nat (length (joint_names cfg_eleven_joints)) < 2 ^ 31)%Z ∧
  (Z.of_nat (length (init_joint_positions cfg_eleven_joints)) < 2 ^ 31)%Z ∧
  events (startup zero_fill quaternion_rotation unit (λ _ _ _, ()) cfg_eleven_joints) =
    [LogError invalid_joint_configuration;
     LogError "Num(joints): %u, Num(joint names): %lu, Num(joint initial positions): %lu"].
Proof.
  assert (- 2 ^ 31 ≤ num_joints_param cfg_eleven_joints < 2 ^ 31)%Z as H1 by (simpl; lia).
  assert (Z.of_nat (length (joint_names cfg_eleven_joints)) < 2 ^ 31)%Z as H2
    by (simpl; lia).
  assert (Z.of_nat (length (init_joint_positions cfg_eleven_joints)) < 2 ^ 31)%Z as H3
    by (simpl; lia).
  do 3 (split; [assumption|]).
  destruct (startup_log zero_fill quaternion_rotation unit (λ _ _ _, ()) cfg_eleven_joints
              H1 H2 H3) as [_ Hmismatch].
  apply Hmismatch. left. simpl. lia.
Defined.

Lemma start_footholds_witness :
  ∃ nd mgr0 ft_p,
    result (startup zero_fill quaternion_rotation unit (λ _ _ _, ()) cfg_twelve_joints)
      = Some (nd, mgr0) ∧
    forwardKinematics zero_fill QuadrupedKinematics_ctor
      (init_joint_positions cfg_twelve_joints) = Some ft_p ∧
    (∃ c w, col ft_p 1 = Some c ∧ body_to_world (Rwb nd) (x nd) c = Some w ∧
            foothold_start_map nd !! "FL" = Some w) ∧
    foothold_start_map nd !! "LF" = None.
Proof.
  destruct (startup_returns zero_fill quaternion_rotation unit (λ _ _ _, ())
              cfg_twelve_joints) as [[nd mgr0] Hs];
    [simpl; lia|simpl; lia|simpl; lia|simpl; lia|reflexivity|].
  destruct (start_footholds zero_fill quaternion_rotation unit (λ _ _ _, ())
              cfg_twelve_joints nd mgr0 Hs) as (ft_p & Hfk & Hlegs & Hnone).
  exists nd, mgr0, ft_p. split; [exact Hs|]. split; [exact Hfk|].
  split; [apply (Hlegs 1%nat "FL"); reflexivity|].
  apply Hnone. unfold leg_order.
  repeat (apply not_elem_of_cons; split; [discriminate|]). apply not_elem_of_nil.
Defined.

Lemma published_joint_names_witness :
  ∃ nd mgr0,
    result (startup zero_fill quaternion_rotation unit (λ _ _ _, ()) cfg_twelve_joints)
      = Some (nd, mgr0) ∧
    (2 < 4)%nat ∧ leg_names cfg_twelve_joints !! 2%nat = Some "RR" ∧
    ("RR" ∉ take 2 (leg_names cfg_twelve_joints)) ∧
    ∀ mgr (gait_map : GaitMap) msg,
      PublishJointState "RR" msg
        ∈ events (cycle echo_inverse unit origin_reference (λ m _, m) (λ m _ _, m)
                    no_footholds 0 nd mgr gait_map) →
      js_name msg = ["RR_hip"; "RR_thigh"; "RR_calf"].
Proof.
  destruct (startup_returns zero_fill quaternion_rotation unit (λ _ _ _, ())
              cfg_twelve_joints) as [[nd mgr0] Hs];
    [simpl; lia|simpl; lia|simpl; lia|simpl; lia|reflexivity|].
  assert ("RR" ∉ take 2 (leg_names cfg_twelve_joints)) as Hfresh.
  { simpl. repeat (apply not_elem_of_cons; split; [discriminate|]). apply not_elem_of_nil. }
  exists nd, mgr0. split; [exact Hs|]. split; [lia|]. split; [reflexivity|].
  split; [exact Hfresh|].
  destruct (published_joint_names zero_fill echo_inverse quaternion_rotation unit
              (λ _ _ _, ()) origin_reference (λ m _, m) (λ m _ _, m) no_footholds 0
              cfg_twelve_joints nd mgr0 2 "RR" Hs) as (n0 & n1 & n2 & H0 & H1 & H2 & Hpub);
    [lia|reflexivity|exact Hfresh|].
  injection H0 as <-. injection H1 as <-. injection H2 as <-. exact Hpub.
Defined.

Lemma cycle_without_footholds_witness :
  ∃ nd mgr0 e,
    result (startup zero_fill quaternion_rotation unit (λ _ _ _, ()) cfg_twelve_joints)
      = Some (nd, mgr0) ∧
    no_footholds (node_t_stance nd) (Rwb nd) (x nd) (xdot nd) (xdot_d nd) (w_d nd)
      all_stance = ∅ ∧
    e ∈ events (cycle echo_inverse unit origin_reference (λ m _, m) (λ m _ _, m)
                  no_footholds 0 nd () all_stance) ∧
    ∃ leg msg, e = PublishJointState leg msg ∧ is_Some (all_stance !! leg).
Proof.
  exists (from_option fst no_node
            (result (startup zero_fill quaternion_rotation unit (λ _ _ _, ())
                       cfg_twelve_joints))), (),
    (PublishJointState "FL" {| js_stamp := 0; js_name := ["FL_hip"; "FL_thigh"; "FL_calf"];
                               js_position := [0; 0.5; -1] |}).
  split; [vm_compute; reflexivity|]. split; [reflexivity|].
  match goal with |- ?e ∈ ?l ∧ _ => assert (e ∈ l) as Hin end.
  { vm_compute. left. }
  split; [exact Hin|].
  exact (cycle_without_footholds echo_inverse unit origin_reference (λ m _, m)
           (λ m _ _, m) no_footholds 0 _ () all_stance eq_refl _ Hin).
Defined.

Lemma cycle_throws_on_unknown_planned_leg_witness :
  ∃ nd mgr0,
    result (startup zero_fill quaternion_rotation unit (λ _ _ _, ()) cfg_twelve_joints)
      = Some (nd, mgr0) ∧
    foothold_for_LF (node_t_stance nd) (Rwb nd) (x nd) (xdot nd) (xdot_d nd) (w_d nd)
      all_stance !! "LF" = Some [0.2; 0.1; 0] ∧
    foothold_start_map nd !! "LF" = None ∧
    run echo_inverse unit origin_reference (λ m _, m) (λ m _ _, m) foothold_for_LF 0
      nd () [all_stance; all_stance] = MkPub [] None.
Proof.
  exists (from_option fst no_node
            (result (startup zero_fill quaternion_rotation unit (λ _ _ _, ())
                       cfg_twelve_joints))), ().
  split; [vm_compute; reflexivity|].
  match goal with |- ?a = ?b ∧ ?c = ?d ∧ _ =>
    assert (a = b) as Hplan by (vm_compute; reflexivity);
    assert (c = d) as Hstart by (vm_compute; reflexivity)
  end.
  split; [exact Hplan|]. split; [exact Hstart|].
  exact (proj2 (cycle_throws_on_unknown_planned_leg echo_inverse unit origin_reference
                  (λ m _, m) (λ m _ _, m) foothold_for_LF 0 _ () all_stance [all_stance]
                  "LF" [0.2; 0.1; 0] Hplan Hstart)).
Defined.

Lemma swing_foot_position_right_at_origin_or_unrotated_witness :
  det33 half_turn ≠ 0 ∧
  ∃ a b c a' b' c',
    swing_foot_position half_turn [0; 0; 0] foot_at = Some [a; b; c] ∧
    world_to_body half_turn [0; 0; 0] foot_at = Some [a'; b'; c'] ∧
    a = a' ∧ b = b' ∧ c = c'.
Proof.
  assert (det33 half_turn ≠ 0) as Hdet by (rewrite det33_half_turn; lra).
  split; [exact Hdet|].
  exact (proj1 (swing_foot_position_right_at_origin_or_unrotated
                  (-1) 0 0 0 (-1) 0 0 0 1 0 0 0 1 0 0) Hdet).
Defined.


Lemma torque_is_derivative_of_work_witness :
  length (replicate 12 0.5) = 12%nat ∧ length (replicate 12 1) = 12%nat ∧
  ∃ tau, jacobianTransposeControl zero_fill QuadrupedKinematics_ctor (replicate 12 0.5)
           (replicate 12 1) = Some tau ∧
    ∃ tj, at_ tau (3 * 1 + 2) = Some tj ∧
      derivable_pt_lim
        (λ t, 1 * foot_coordinate zero_fill trans_fl left_links (<[2%nat := t]> [0.5; 0.5; 0.5]) 0
              + 1 * foot_coordinate zero_fill trans_fl left_links
                      (<[2%nat := t]> [0.5; 0.5; 0.5]) 1
              + 1 * foot_coordinate zero_fill trans_fl left_links
                      (<[2%nat := t]> [0.5; 0.5; 0.5]) 2) 0.5 tj.
Proof.
  do 2 (split; [reflexivity|]).
  destruct (torque_is_derivative_of_work zero_fill (replicate 12 0.5) (replicate 12 1)
              eq_refl eq_refl) as (tau & Htau & Hlegs).
  exists tau. split; [exact Htau|].
  destruct (Hlegs 1%nat "FL" eq_refl)
    as (cfg & qk & f0 & f1 & f2 & Hcfg & Hqk & Hfk & Hj).
  rewrite link_map_FL in Hcfg. injection Hcfg as <-.
  injection Hqk as <-. injection Hfk as <- <- <-.
  destruct (Hj 2%nat) as (tj & qj & Htj & Hqj & Hd); [lia|].
  injection Hqj as <-. exists tj. split; [exact Htj|exact Hd].
Defined.
